(** * Legally: the retrieval subsystem of the legal assistant

    A shallow embedding of
    - [tools/legal_precedent_search_tool.py]: the trusted-domain check, the
      citation extractor, the precedent search tool and the court-level
      searcher;
    - [database/chroma_db/setup_vector_db.py]: the corpus loader and the
      index builder;
    - [tools/ipc_sections_search_tool.py]: the statute search tool and the
      statute searcher, over a vector store that is a parameter.

    Conventions of the model.
    - Python [str] is [string]; one [ascii] is one code point, so the texts
      covered are those over U+0000..U+00FF.  [str.lower] and the regex
      classes are the Unicode ones restricted to that range.  The fixed
      messages of the tools that carry an emoji are written as UTF-8 and are
      never sliced, lowered or matched.
    - Python [int] is [Z]; [dict] is [gmap string _]; [set] is [gset string].
    - An upstream search result is a record whose fields are optional: a
      field is [None] when the key is absent from the provider's JSON object.
    - Effects (the request sent to the provider, exceptions, try/except) live
      in a small state-and-error monad [M]; the state is the list of requests
      issued so far. *)

From Stdlib Require Import ZArith NArith QArith_base String Ascii List Lia.
From stdpp Require Import gmap strings pretty.

(* String concatenation unfolds on a constructor, as the list one does. *)
#[local] Arguments String.append !_ _ / : simpl nomatch.

(** ** Text: the [str] operations the tools use *)

Module Text.

Definition code (c : ascii) : N := N_of_ascii c.

Definition between (lo hi : N) (c : ascii) : bool :=
  ((lo <=? code c) && (code c <=? hi))%N.

(** [str.lower] on one code point below U+0100: A-Z, and U+00C0..U+00DE
    but the multiplication sign U+00D7, move up by 32. *)
Definition lower_char (c : ascii) : ascii :=
  if between 65 90 c || (between 192 222 c && negb (code c =? 215)%N)
  then ascii_of_N (code c + 32)
  else c.

Fixpoint lower (s : string) : string :=
  match s with
  | EmptyString => EmptyString
  | String c s' => String (lower_char c) (lower s')
  end.

(** [needle in s] *)
Fixpoint contains (needle s : string) : bool :=
  String.prefix needle s
  || match s with
     | EmptyString => false
     | String _ s' => contains needle s'
     end.

(** [s[:n]] for [n >= 0] *)
Fixpoint take_chars (n : nat) (s : string) : string :=
  match n, s with
  | S n', String c s' => String c (take_chars n' s')
  | _, _ => EmptyString
  end.

(** [s[n:]] for [n >= 0] *)
Fixpoint drop_chars (n : nat) (s : string) : string :=
  match n, s with
  | S n', String _ s' => drop_chars n' s'
  | _, _ => s
  end.

(** [s.replace(old, new)] for a one-character [old] *)
Fixpoint replace (old : ascii) (new : string) (s : string) : string :=
  match s with
  | EmptyString => EmptyString
  | String c s' =>
      if Ascii.eqb c old then new +:+ replace old new s'
      else String c (replace old new s')
  end.

(** [sep.join(parts)] *)
Fixpoint join (sep : string) (parts : list string) : string :=
  match parts with
  | [] => EmptyString
  | [p] => p
  | p :: rest => p +:+ sep +:+ join sep rest
  end.

(** Truthiness of an optional string: [None] and the empty string are
    falsy. *)
Definition truthy (o : option string) : bool :=
  match o with
  | Some (String _ _) => true
  | _ => false
  end.

(** [a or b] on optional strings *)
Definition py_or (a b : option string) : option string :=
  if truthy a then a else b.

Definition is_suffix (suf s : string) : bool :=
  String.eqb (drop_chars (String.length s - String.length suf) s) suf.

End Text.

(** ** Re: the fragment of [re] the citation patterns are written in

    A pattern of this fragment is a sequence of single-character items, each
    under a greedy repetition.  [re.search] tries every start position from
    the left; at a position the items are matched in order, each repetition
    taking as many characters as it can and giving them back one at a time
    when the rest of the pattern fails. *)

Module Re.

Inductive charset :=
| Literal (c : ascii)
| Digit      (* \d *)
| Space      (* \s *)
| Word.      (* \w *)

(** One item: [cs{lo,hi}]; [hi = None] is unbounded. *)
Record item := Repeat { set : charset; lo : nat; hi : option nat }.

Definition pattern := list item.

Definition is_digit (c : ascii) : bool := Text.between 48 57 c.

(** Unicode white space below U+0100 *)
Definition is_space (c : ascii) : bool :=
  Text.between 9 13 c || Text.between 28 32 c
  || (Text.code c =? 133)%N || (Text.code c =? 160)%N.

(** Unicode alphanumerics below U+0100, and the underscore *)
Definition is_word (c : ascii) : bool :=
  Text.between 48 57 c || Text.between 65 90 c || Text.between 97 122 c
  || (Text.code c =? 95)%N
  || (Text.code c =? 170)%N || (Text.code c =? 181)%N || (Text.code c =? 186)%N
  || (Text.code c =? 178)%N || (Text.code c =? 179)%N || (Text.code c =? 185)%N
  || Text.between 188 190 c
  || Text.between 192 214 c || Text.between 216 246 c || Text.between 248 255 c.

(** Does the character belong to the set?  Under IGNORECASE a literal is
    compared after lowering. *)
Definition accepts (ignorecase : bool) (cs : charset) (c : ascii) : bool :=
  match cs with
  | Literal l =>
      if ignorecase then Ascii.eqb (Text.lower_char c) (Text.lower_char l)
      else Ascii.eqb c l
  | Digit => is_digit c
  | Space => is_space c
  | Word => is_word c
  end.

(** The longest run of accepted characters at the head of [s], capped. *)
Fixpoint run (p : ascii -> bool) (cap : option nat) (s : string) : nat :=
  match cap, s with
  | Some O, _ => O
  | _, EmptyString => O
  | _, String c s' =>
      if p c then S (run p (pred <$> cap) s') else O
  end.

(** Try the continuation after [n], [n-1], ..., [lo] characters. *)
Fixpoint give_back (rest : nat -> option nat) (lo n : nat) : option nat :=
  if (n <? lo)%nat then None
  else match rest n with
       | Some m => Some (n + m)%nat
       | None =>
           match n with
           | O => None
           | S n' => give_back rest lo n'
           end
       end.

(** Length of the match of [re] anchored at the head of [s]. *)
Fixpoint match_here (ignorecase : bool) (re : pattern) (s : string)
  : option nat :=
  match re with
  | [] => Some O
  | it :: re' =>
      give_back (fun k => match_here ignorecase re' (Text.drop_chars k s))
                (lo it) (run (accepts ignorecase (set it)) (hi it) s)
  end.

(** [re.search(re, s)]: offset and length of the leftmost match. *)
Fixpoint search_from (ignorecase : bool) (re : pattern) (s : string)
         (pos : nat) : option (nat * nat) :=
  match match_here ignorecase re s with
  | Some len => Some (pos, len)
  | None =>
      match s with
      | EmptyString => None
      | String _ s' => search_from ignorecase re s' (S pos)
      end
  end.

(** [re.search(re, s, flags)] followed by [.group()] *)
Definition search (ignorecase : bool) (re : pattern) (s : string)
  : option string :=
  match search_from ignorecase re s O with
  | Some (pos, len) => Some (Text.take_chars len (Text.drop_chars pos s))
  | None => None
  end.

(** *** Reading a pattern from its source text *)

Definition digit_value (c : ascii) : nat := N.to_nat (Text.code c - 48).

(** The decimal number at the head of [s] and what follows it. *)
Fixpoint read_number (acc : nat) (s : string) : nat * string :=
  match s with
  | String c s' =>
      if is_digit c then read_number (10 * acc + digit_value c) s'
      else (acc, s)
  | EmptyString => (acc, s)
  end.

Definition read_set (s : string) : option (charset * string) :=
  match s with
  | EmptyString => None
  | String "\" (String "d" s') => Some (Digit, s')
  | String "\" (String "s" s') => Some (Space, s')
  | String "\" (String "w" s') => Some (Word, s')
  | String "\" (String c s') => if is_word c then None else Some (Literal c, s')
  | String "\" EmptyString => None
  | String c s' => Some (Literal c, s')
  end.

Definition read_quantifier (s : string) : option (nat * option nat * string) :=
  match s with
  | String "*" s' => Some (O, None, s')
  | String "+" s' => Some (1%nat, None, s')
  | String "{" s' =>
      match read_number O s' with
      | (n, String "}" s'') => Some (n, Some n, s'')
      | _ => None
      end
  | _ => Some (1%nat, Some 1%nat, s)
  end.

Fixpoint compile_fuel (fuel : nat) (s : string) : option pattern :=
  match fuel with
  | O => None
  | S fuel' =>
      match s with
      | EmptyString => Some []
      | _ =>
          '(cs, s1) ← read_set s;
          '(l, h, s2) ← read_quantifier s1;
          re ← compile_fuel fuel' s2;
          Some (Repeat cs l h :: re)
      end
  end.

(** [re.compile] on the fragment; every item consumes a character of the
    source, so its length plus one is fuel enough. *)
Definition compile (s : string) : option pattern :=
  compile_fuel (S (String.length s)) s.

End Re.

(** ** Precedent: [legal_precedent_search_tool.py] *)

Module Precedent.

(** Trusted Indian legal domains *)
Definition LEGAL_SOURCES : list string :=
  [ "indiankanoon.org";
    "sci.gov.in";
    "judgments.ecourts.gov.in";
    "hcservices.ecourts.gov.in";
    "lawmin.gov.in";
    "legislative.gov.in";
    "legalserviceindia.com";
    "casemine.com";
    "manupatra.com";
    "scconline.com" ].

(** Check if a URL belongs to one of the trusted legal domains. *)
Definition _is_legal_source (url : string) : bool :=
  if negb (Text.truthy (Some url)) then false
  else existsb (fun domain => Text.contains domain (Text.lower url))
               LEGAL_SOURCES.

(** Common citation patterns, as written in the source. *)
Definition pattern_sources : list string :=
  [ "\(\d{4}\)\s*\d+\s*SCC\s*\d+";
    "AIR\s*\d{4}\s*SC\s*\d+";
    "\d{4}\s*\(\d+\)\s*\w+\s*\d+";
    "W\.P\.\s*No\.\s*\d+\s*of\s*\d{4}" ].

Definition patterns : list Re.pattern :=
  Eval vm_compute in omap Re.compile pattern_sources.

(** The [for pattern in patterns] loop of [_extract_case_citation]. *)
Fixpoint first_match (ps : list Re.pattern) (text : string) : option string :=
  match ps with
  | [] => None
  | pattern :: ps' =>
      match Re.search true pattern text with
      | Some group => Some group
      | None => first_match ps' text
      end
  end.

(** Extract case citation from text. *)
Definition _extract_case_citation (text : string) : option string :=
  first_match patterns text.

(** *** Values, upstream results and result dictionaries *)

Inductive value :=
| VNone
| VStr (s : string)
| VInt (z : Z)
| VFloat (q : Q).

Definition of_optional (o : option string) : value :=
  from_option VStr VNone o.

(** One entry of the provider's ["results"]. *)
Record raw_result := RawResult {
  title : option string;
  content : option string;
  url : option string;
  score : option Q
}.

(** [item.get(key, "")] *)
Definition get_str (field : option string) : string := default EmptyString field.

Record search_request := SearchRequest {
  query : string;
  max_results : Z;
  search_depth : string;
  include_domains : option (list string)
}.

Record response := Response { results : option (list raw_result) }.

(** *** Effects *)

Inductive exn :=
| ValueError (msg : string)
| ProviderError (msg : string).

(** [str(e)] *)
Definition str (e : exn) : string :=
  match e with
  | ValueError msg => msg
  | ProviderError msg => msg
  end.

Inductive result (A : Type) :=
| Ok (a : A)
| Raise (e : exn).
Arguments Ok {A} a.
Arguments Raise {A} e.

(** What a call runs against: the environment variable and the provider. *)
Record world := World {
  TAVILY_API_KEY : option string;
  tavily : search_request -> result response
}.

(** A computation threads the log of the requests issued. *)
Definition M (A : Type) : Type :=
  list search_request -> result A * list search_request.

Definition ret {A} (a : A) : M A := fun log => (Ok a, log).

Definition raise {A} (e : exn) : M A := fun log => (Raise e, log).

Definition bind {A B} (m : M A) (k : A -> M B) : M B :=
  fun log =>
    match m log with
    | (Ok a, log') => k a log'
    | (Raise e, log') => (Raise e, log')
    end.

(** [try: body except Exception as e: handler(e)] *)
Definition try_except {A} (body : M A) (handler : exn -> M A) : M A :=
  fun log =>
    match body log with
    | (Ok a, log') => (Ok a, log')
    | (Raise e, log') => handler e log'
    end.

(** [client.search(...)]: the request is issued, then the provider answers
    or fails. *)
Definition client_search (w : world) (req : search_request) : M response :=
  fun log => (tavily w req, (log ++ [req])%list).

#[global] Instance M_ret : MRet M := @ret.
#[global] Instance M_bind : MBind M := fun A B k m => bind m k.

(** *** The precedent search tool *)

(** What the tool hands back: a fixed or error text as it is, or the
    listing rendered from [legal_results] (the rendering itself is
    presentation and is not modelled). *)
Inductive tool_output :=
| Message (text : string)
| Formatted (legal_results : list (gmap string value)).

Definition missing_key_message : string :=
  "❌ Error: 'TAVILY_API_KEY' not found in .env file".

Definition no_results_message : string :=
  "No relevant legal precedents found from trusted Indian legal sources.".

Definition search_error_message (e : exn) : string :=
  "❌ Error searching legal precedents: " +:+ str e.

(** The dictionary appended to [legal_results] for [item]. *)
Definition precedent (item : raw_result) (title : string)
  : gmap string value :=
  let citation :=
    Text.py_or (_extract_case_citation title)
               (_extract_case_citation (get_str (content item))) in
  list_to_map
    [ ("title", VStr title);
      ("citation", of_optional citation);
      ("summary", VStr (Text.take_chars 500 (get_str (content item))));
      ("url", of_optional (url item));
      ("source",
        VStr (default "Unknown"
                (List.find (fun domain => Text.contains domain (get_str (url item)))
                           LEGAL_SOURCES))) ].

(** The [for item in raw_results] loop: [continue] goes on with the state
    unchanged, [break] returns the list as it stands. *)
Fixpoint collect (max_results : Z) (raw_results : list raw_result)
         (legal_results : list (gmap string value))
         (seen_titles : gset string) : list (gmap string value) :=
  match raw_results with
  | [] => legal_results
  | item :: rest =>
      if negb (_is_legal_source (get_str (url item)))
      then collect max_results rest legal_results seen_titles
      else
        let title := get_str (title item) in
        if decide (title ∈ seen_titles)
        then collect max_results rest legal_results seen_titles
        else
          let seen_titles := seen_titles ∪ {[ title ]} in
          let legal_results := (legal_results ++ [precedent item title])%list in
          if (Z.of_nat (length legal_results) >=? max_results)%Z
          then legal_results
          else collect max_results rest legal_results seen_titles
  end.

(** The query string sent to the provider. *)
Definition search_query_of (query : string) (ipc_sections : option string)
  : string :=
  let search_terms := [query] in
  let search_terms :=
    if Text.truthy ipc_sections
    then
      let sections := Text.replace "," " OR IPC " (get_str ipc_sections) in
      (search_terms ++ ["IPC " +:+ sections])%list
    else search_terms in
  let search_terms :=
    (search_terms ++ ["judgment precedent case law India"])%list in
  let full_query := Text.join " " search_terms in
  let site_query :=
    Text.join " OR "
      (map (fun domain => "site:" +:+ domain) (take 3 LEGAL_SOURCES)) in
  "(" +:+ site_query +:+ ") " +:+ full_query.

Definition search_legal_precedents (w : world) (query : string)
           (ipc_sections : option string) (max_results : Z)
  : M tool_output :=
  let api_key := TAVILY_API_KEY w in
  if negb (Text.truthy api_key) then ret (Message missing_key_message)
  else
    try_except
      (let search_query := search_query_of query ipc_sections in
       response ← client_search w
         {| query := search_query;
            max_results := max_results * 2;
            search_depth := "advanced";
            include_domains := Some LEGAL_SOURCES |};
       let raw_results := default [] (results response) in
       let legal_results := collect max_results raw_results [] ∅ in
       match legal_results with
       | [] => ret (Message no_results_message)
       | _ => ret (Formatted legal_results)
       end)
      (fun e => ret (Message (search_error_message e))).

(** *** The court-level searcher *)

Record LegalPrecedentSearcher := Searcher {
  api_key : string;
  cache : gmap string value
}.

(** [LegalPrecedentSearcher.__init__] *)
Definition new_searcher (w : world) : M LegalPrecedentSearcher :=
  match TAVILY_API_KEY w with
  | Some (String c k) => ret {| api_key := String c k; cache := ∅ |}
  | _ => raise (ValueError "TAVILY_API_KEY not found in .env file")
  end.

Definition court_domains : gmap string (list string) :=
  list_to_map
    [ ("supreme", ["sci.gov.in"; "indiankanoon.org/search/?formInput=doctypes:sc"]);
      ("high", ["hcservices.ecourts.gov.in"; "indiankanoon.org/search/?formInput=doctypes:hc"]);
      ("district", ["judgments.ecourts.gov.in"]);
      ("all", LEGAL_SOURCES) ].

(** [court_domains.get(court_level, LEGAL_SOURCES)] *)
Definition domains_of (court_level : string) : list string :=
  default LEGAL_SOURCES (court_domains !! court_level).

Definition court_query_of (query court_level : string) : string :=
  let domains := domains_of court_level in
  let site_query :=
    Text.join " OR " (map (fun domain => "site:" +:+ domain) (take 3 domains)) in
  "(" +:+ site_query +:+ ") " +:+ query +:+ " judgment India".

(** The dictionary appended to [results] for [item]. *)
Definition court_result (court_level : string) (item : raw_result)
  : gmap string value :=
  list_to_map
    [ ("title", of_optional (title item));
      ("summary", of_optional (content item));
      ("url", of_optional (url item));
      ("court_level", VStr court_level);
      ("relevance_score", from_option VFloat (VInt 0) (score item)) ].

(** The [for item in response.get("results", [])] loop. *)
Fixpoint court_loop (court_level : string) (items : list raw_result)
         (results : list (gmap string value)) : list (gmap string value) :=
  match items with
  | [] => results
  | item :: rest =>
      if _is_legal_source (get_str (url item))
      then court_loop court_level rest
             (results ++ [court_result court_level item])%list
      else court_loop court_level rest results
  end.

(** [l[:n]]: a negative [n] counts from the end. *)
Definition slice_to {A} (n : Z) (l : list A) : list A :=
  if (0 <=? n)%Z then take (Z.to_nat n) l
  else take (length l - Z.to_nat (- n)) l.

Definition search_by_court (w : world) (self : LegalPrecedentSearcher)
           (query court_level : string) (max_results : Z)
  : M (list (gmap string value)) :=
  response ← client_search w
    {| query := court_query_of query court_level;
       max_results := max_results * 2;
       search_depth := "advanced";
       include_domains := None |};
  let results := court_loop court_level (default [] (results response)) [] in
  ret (slice_to max_results results).

(** Find similar cases based on facts and IPC sections. *)
Definition search_similar_cases (w : world) (self : LegalPrecedentSearcher)
           (case_facts : string) (ipc_sections : list string) (max_results : Z)
  : M (list (gmap string value)) :=
  let query_parts := [case_facts] in
  let query_parts :=
    match ipc_sections with
    | [] => query_parts
    | _ =>
        let sections_str :=
          Text.join " " (map (fun s => "IPC-" +:+ s) ipc_sections) in
        (query_parts ++ [sections_str])%list
    end in
  let query := Text.join " " query_parts +:+ " similar cases precedent India" in
  search_by_court w self query "all" max_results.

End Precedent.

(** ** VectorDB: [setup_vector_db.py] *)

Module VectorDB.

Inductive exn :=
| ValueError (msg : string)
| FileNotFoundError (msg : string)
| JSONDecodeError
| NameError (name : string)
| TypeError.

Inductive result (A : Type) :=
| Ok (a : A)
| Raise (e : exn).
Arguments Ok {A} a.
Arguments Raise {A} e.

(** One record of the corpus: its fields, those present. *)
Abbreviation section := (gmap string string).

Record Document := Doc {
  page_content : string;
  metadata : gmap string string
}.

(** The attributes [__init__] sets from the environment. *)
Record IPCVectorDBSetup := Setup {
  ipc_json_path : string;
  persist_directory : string;
  collection_name : option string
}.

(** The objects a name of [load_ipc_data] can be bound to. *)
Inductive object :=
| TheSetup (self : IPCVectorDBSetup)
| OpenFile (text : string)
| Sections (data : list section)
| Imported.

(** Module-level names of [setup_vector_db.py] when a method runs. *)
Definition module_globals : gmap string object :=
  list_to_map
    (map (fun name => (name, Imported))
       [ "os"; "json"; "List"; "Dict"; "Any"; "load_dotenv"; "Chroma";
         "ChromaDB"; "HuggingFaceEmbeddings"; "Document"; "tqdm"; "shutil";
         "IPCVectorDBSetup" ]).

(** Name resolution inside a method: its locals, then the module. *)
Definition resolve (locals : gmap string object) (name : string)
  : result object :=
  match locals !! name with
  | Some o => Ok o
  | None =>
      match module_globals !! name with
      | Some o => Ok o
      | None => Raise (NameError name)
      end
  end.

(** [len(x)] *)
Definition len (o : object) : result nat :=
  match o with
  | Sections data => Ok (length data)
  | _ => Raise TypeError
  end.

Section Loader.

(** [json.load] on the text of a file: [None] when the text is not valid
    JSON for a list of records. *)
Variable json_load : string -> option (list section).

(** The files on disk, by path. *)
Variable files : gmap string string.

(** Load IPC data from JSON file *)
Definition load_ipc_data (self : IPCVectorDBSetup) : result (list section) :=
  match files !! ipc_json_path self with
  | None =>
      Raise (FileNotFoundError
               ("IPC JSON file not found at " +:+ ipc_json_path self))
  | Some text =>
      match json_load text with
      | None => Raise JSONDecodeError
      | Some data =>
          let locals : gmap string object :=
            list_to_map [ ("self", TheSetup self); ("f", OpenFile text);
                          ("data", Sections data) ] in
          (* print(f"Loaded {len(ipc_data)} IPC sections.") *)
          match resolve locals "ipc_data" with
          | Raise e => Raise e
          | Ok o =>
              match len o with
              | Raise e => Raise e
              | Ok _ => Ok data
              end
          end
      end
  end.

Definition nl : string := String (ascii_of_nat 10) EmptyString.
Definition indent : string := "            ".

(** [section.get(key, default)] *)
Definition get (s : section) (key fallback : string) : string :=
  default fallback (s !! key).

Definition prepare_document (s : section) : Document :=
  {| page_content :=
       nl +:+ indent +:+ "Section " +:+ get s "Section" "" +:+ ": "
          +:+ get s "Section_Title" "" +:+ nl
       +:+ indent +:+ nl
       +:+ indent +:+ "Description: " +:+ get s "Description" "" +:+ nl
       +:+ indent +:+ nl
       +:+ indent +:+ "Chapter: " +:+ get s "Chapter" "" +:+ " - "
          +:+ get s "Chapter_Title" "" +:+ nl
       +:+ indent +:+ nl
       +:+ indent +:+ "Offense Type: " +:+ get s "Offense_Type" "" +:+ nl
       +:+ indent +:+ "Punishment: " +:+ get s "Punishment" "" +:+ nl
       +:+ indent +:+ "Bailable: " +:+ get s "Is_Bailable" "Not specified" +:+ nl
       +:+ indent +:+ "Cognizable: " +:+ get s "Is_Cognizable" "Not specified" +:+ nl
       +:+ indent +:+ "Triable By: " +:+ get s "Triable_By" "Not specified" +:+ nl
       +:+ indent;
     metadata :=
       list_to_map
         [ ("section", get s "Section" "");
           ("section_title", get s "Section_Title" "");
           ("chapter", get s "Chapter" "");
           ("chapter_title", get s "Chapter_Title" "");
           ("description", get s "Description" "");
           ("offense_type", get s "Offense_Type" "");
           ("punishment", get s "Punishment" "");
           ("is_bailable", get s "Is_Bailable" "");
           ("is_cognizable", get s "Is_Cognizable" "");
           ("triable_by", get s "Triable_By" "") ] |}.

(** Convert IPC data to Langchain Document format. *)
Definition prepare_documents (ipc_data : list section) : list Document :=
  map prepare_document ipc_data.

(** Create or update the persisted collection: [index] is what the persist
    directory holds, [None] when the directory does not exist. *)
Definition create_vector_db (index : option (list Document))
           (documents : list Document) (reset : bool) : list Document :=
  let index := if reset && bool_decide (is_Some index) then None else index in
  (default [] index ++ documents)%list.

(** Main setup method: the outcome and the index left behind.  An
    exception is reported and raised again. *)
Definition setup (self : IPCVectorDBSetup) (index : option (list Document))
           (reset : bool) : result unit * option (list Document) :=
  match load_ipc_data self with
  | Raise e => (Raise e, index)
  | Ok ipc_data =>
      let documents := prepare_documents ipc_data in
      let vector_db := create_vector_db index documents reset in
      (Ok tt, Some vector_db)
  end.

End Loader.


End VectorDB.

(** ** StatuteSearch: [ipc_sections_search_tool.py] *)

Module StatuteSearch.

Inductive exn :=
| ValueError (msg : string)
| StoreError (msg : string).

(** [str(e)] *)
Definition str (e : exn) : string :=
  match e with
  | ValueError msg => msg
  | StoreError msg => msg
  end.

Inductive result (A : Type) :=
| Ok (a : A)
| Raise (e : exn).
Arguments Ok {A} a.
Arguments Raise {A} e.

(** One [similarity_search] on a Chroma collection opened at a directory. *)
Record store_call := StoreCall {
  persist_directory : string;
  collection_name : string;
  query : string;
  k : Z;
  filter : option (gmap string string)
}.

(** What a call runs against: the environment after [load_dotenv], the
    paths that exist, and the vector store with its embedding model.  A
    [Raise] of the store stands for a failure of any of the library calls
    (loading the model, opening the collection, searching). *)
Record world := World {
  environ : gmap string string;
  paths : gset string;
  similarity_search : store_call -> result (list VectorDB.Document)
}.

Definition nl : string := String (ascii_of_nat 10) EmptyString.

(** [metadata.get(key, fallback)] *)
Definition get (metadata : gmap string string) (key fallback : string) : string :=
  default fallback (metadata !! key).

(** The block of one document in the listing; [i] counts from 1. *)
Definition section_info (i : nat) (doc : VectorDB.Document) : string :=
  let metadata := VectorDB.metadata doc in
  nl +:+ "**Result " +:+ pretty i +:+ ":**" +:+ nl
  +:+ "📗 **Section " +:+ get metadata "section" "N/A" +:+ "**: "
  +:+ get metadata "section_title" "N/A" +:+ nl
  +:+ nl
  +:+ "**Chapter**: " +:+ get metadata "chapter" "N/A" +:+ " - "
  +:+ get metadata "chapter_title" "N/A" +:+ nl
  +:+ nl
  +:+ "**Description**: "
  +:+ get metadata "description"
          (Text.take_chars 200 (VectorDB.page_content doc)) +:+ nl
  +:+ nl
  +:+ "**Punishment**: " +:+ get metadata "punishment" "Not specified" +:+ nl
  +:+ nl
  +:+ "**Legal Details**:" +:+ nl
  +:+ "- Bailable: " +:+ get metadata "is_bailable" "Not specified" +:+ nl
  +:+ "- Cognizable: " +:+ get metadata "is_cognizable" "Not specified" +:+ nl
  +:+ "- Triable By: " +:+ get metadata "triable_by" "Not specified" +:+ nl
  +:+ "---".

Definition missing_directory_message : string :=
  "❌ Error: 'PERSIST_DIRECTORY_PATH' is not set in .env file".

Definition missing_database_message : string :=
  "❌ Error: Vector database not found. Please run setup first.".

Definition no_sections_message : string :=
  "No relevant IPC sections found for the given query.".

Definition search_error_message (e : exn) : string :=
  "❌ Error searching IPC sections: " +:+ str e.

(** Search IPC vector database for sections relevant to the input query:
    the text returned and the calls made to the store. *)
Definition search_ipc_sections (w : world) (query : string) (top_k : Z)
  : string * list store_call :=
  let persist_dir := environ w !! "PERSIST_DIRECTORY_PATH" in
  if negb (Text.truthy persist_dir) then (missing_directory_message, [])
  else if negb (bool_decide (default EmptyString persist_dir ∈ paths w))
  then (missing_database_message, [])
  else
    let collection_name :=
      default "ipc_collection" (environ w !! "IPC_COLLECTION_NAME") in
    let call :=
      {| persist_directory := default EmptyString persist_dir;
         collection_name := collection_name;
         query := query;
         k := top_k;
         filter := None |} in
    match similarity_search w call with
    | Raise e => (search_error_message e, [call])
    | Ok [] => (no_sections_message, [call])
    | Ok docs =>
        let results := imap (fun i doc => section_info (S i) doc) docs in
        (Text.join nl results, [call])
    end.

(** The connection an [IPCSectionSearcher] holds. *)
Record IPCSectionSearcher := Searcher {
  db_directory : string;
  db_collection : string
}.


(** The dictionary returned for one document. *)
Definition projection (doc : VectorDB.Document) : gmap string Precedent.value :=
  let metadata := VectorDB.metadata doc in
  list_to_map
    [ ("section", Precedent.of_optional (metadata !! "section"));
      ("section_title", Precedent.of_optional (metadata !! "section_title"));
      ("chapter", Precedent.of_optional (metadata !! "chapter"));
      ("chapter_title", Precedent.of_optional (metadata !! "chapter_title"));
      ("description", Precedent.of_optional (metadata !! "description"));
      ("punishment", Precedent.of_optional (metadata !! "punishment"));
      ("is_bailable", Precedent.of_optional (metadata !! "is_bailable"));
      ("is_cognizable", Precedent.of_optional (metadata !! "is_cognizable"));
      ("content", Precedent.VStr (VectorDB.page_content doc)) ].

(** [filters if filters else None]: an empty dictionary is no filter. *)
Definition where_clause (filters : option (gmap string string))
  : option (gmap string string) :=
  match filters with
  | Some f => if decide (f = ∅) then None else Some f
  | None => None
  end.

(** Search with optional filters: the outcome and the calls made to the
    store. *)
Definition search (w : world) (self : IPCSectionSearcher) (query : string)
           (top_k : Z) (filters : option (gmap string string))
  : result (list (gmap string Precedent.value)) * list store_call :=
  let call :=
    {| persist_directory := db_directory self;
       collection_name := db_collection self;
       query := query;
       k := top_k;
       filter := where_clause filters |} in
  match similarity_search w call with
  | Raise e => (Raise e, [call])
  | Ok docs => (Ok (projection <$> docs), [call])
  end.

End StatuteSearch.

(** ** Specification-side notions

    What the statements below are phrased with; none of it is code of the
    repository. *)

Module Notions.
Import Precedent.

(** The URL-trust test as the loops apply it to an upstream result. *)
Definition trusted (item : raw_result) : bool :=
  _is_legal_source (get_str (url item)).

(** The title the dedup step compares. *)
Definition title_of (item : raw_result) : string := get_str (title item).

(** The candidate built from an upstream result. *)
Definition to_precedent (item : raw_result) : gmap string value :=
  precedent item (title_of item).

(** Keep the first result of every title, in order; [seen] are the titles
    already taken. *)
Fixpoint dedup_titles (seen : gset string) (items : list raw_result)
  : list raw_result :=
  match items with
  | [] => []
  | item :: rest =>
      if decide (title_of item ∈ seen) then dedup_titles seen rest
      else item :: dedup_titles (seen ∪ {[ title_of item ]}) rest
  end.

(** How many candidates the loop of the tool gathers at most. *)
Definition cap (max_results : Z) : nat := Z.to_nat (Z.max 1 max_results).

(** The candidates the tool gathers from an upstream response: trusted
    results, first of every title, at most [cap]. *)
Definition gathered (max_results : Z) (raw : list raw_result)
  : list (gmap string value) :=
  to_precedent <$> take (cap max_results)
                        (dedup_titles ∅ (List.filter trusted raw)).

(** The request of the precedent tool. *)
Definition precedent_request (query : string) (ipc_sections : option string)
           (max_results : Z) : search_request :=
  {| query := search_query_of query ipc_sections;
     max_results := max_results * 2;
     search_depth := "advanced";
     include_domains := Some LEGAL_SOURCES |}.

(** The request of the court-level searcher. *)
Definition court_request (query court_level : string) (max_results : Z)
  : search_request :=
  {| query := court_query_of query court_level;
     max_results := max_results * 2;
     search_depth := "advanced";
     include_domains := None |}.

(** The text after the first [://] of a URL, if there is one. *)
Fixpoint after_scheme (u : string) : option string :=
  match u with
  | EmptyString => None
  | String c u' =>
      match c, u' with
      | ":"%char, String "/" (String "/" rest) => Some rest
      | _, _ => after_scheme u'
      end
  end.

(** The text up to the first of [/ ? # :]. *)
Fixpoint authority (u : string) : string :=
  match u with
  | EmptyString => EmptyString
  | String c u' =>
      if (Ascii.eqb c "/" || Ascii.eqb c "?" || Ascii.eqb c "#" || Ascii.eqb c ":")%bool
      then EmptyString
      else String c (authority u')
  end.

(** The host of a URL. *)
Definition url_host (u : string) : string :=
  authority (default u (after_scheme u)).

(** A domain of [domains] occurs in the lowered text. *)
Definition mentions (domains : list string) (text : string) : bool :=
  existsb (fun domain => Text.contains domain (Text.lower text)) domains.

(** The candidate has a source field that is a trusted domain. *)
Definition source_domain_trusted (c : gmap string value) : Prop :=
  ∃ domain, c !! "source" = Some (VStr domain) ∧ domain ∈ LEGAL_SOURCES.

(** The candidate has a URL that passes the URL-trust test. *)
Definition url_trusted (c : gmap string value) : Prop :=
  ∃ u, c !! "url" = Some (VStr u) ∧ _is_legal_source u = true.

(** The candidate has a URL that mentions a domain of the court level's
    entry in the table. *)
Definition url_in_court_subset (court_level : string) (c : gmap string value)
  : Prop :=
  ∃ u, c !! "url" = Some (VStr u) ∧ mentions (domains_of court_level) u = true.

(** The domain clause of the precedent tool. *)
Definition domain_clause : string :=
  Text.join " OR " (map (fun domain => "site:" +:+ domain) (take 3 LEGAL_SOURCES)).

(** The boosting terms as the specification words them. *)
Definition boosting_terms_as_stated : string := "judgment precedent case law".

(** The search string as the specification words it: the raw query, the
    statute identifiers when given, exactly the boosting terms, and the
    domain clause appended to that. *)
Definition search_query_as_stated (query : string) (ipc_sections : option string)
  : string :=
  let terms :=
    ([query]
     ++ (if Text.truthy ipc_sections
         then ["IPC " +:+ Text.replace "," " OR IPC " (get_str ipc_sections)]
         else [])
     ++ [boosting_terms_as_stated])%list in
  Text.join " " terms +:+ " (" +:+ domain_clause +:+ ")".

(** The weakest reading of an appended clause: the string sent splits into
    a free text that starts with the raw query and ends with the stated
    boosting terms, and a rest that holds the domain clause. *)
Definition clause_appended (query sent : string) : Prop :=
  ∃ free_text rest,
    sent = free_text +:+ rest
    ∧ String.prefix query free_text = true
    ∧ Text.is_suffix boosting_terms_as_stated free_text = true
    ∧ Text.contains domain_clause rest = true.

End Notions.

(** ** Sample inputs *)

Module Samples.
Import Precedent.

Definition kanoon_murder : raw_result :=
  RawResult (Some "State v. Kumar") (Some "Held: Ref: (2023) 4 SCC 221 applies.")
            (Some "https://indiankanoon.org/doc/1") (Some (9 # 10)).

Definition kanoon_mixed_case : raw_result :=
  RawResult (Some "State v. Kumar") (Some "A bench of three judges.")
            (Some "https://IndianKanoon.org/doc/1") (Some (1 # 2)).

Definition casemine_copy : raw_result :=
  RawResult (Some "State v. Kumar") (Some "AIR 1999 SC 12")
            (Some "https://www.casemine.com/judgement/in/1") None.

Definition casemine_upper : raw_result :=
  RawResult (Some "STATE V. KUMAR") (Some "No citation here.")
            (Some "https://www.casemine.com/judgement/in/2") (Some (1 # 4)).

Definition blog_post : raw_result :=
  RawResult (Some "My blog") (Some "(2023) 4 SCC 221")
            (Some "https://blog.example.com/post") (Some (1 # 1)).

Definition manupatra_note : raw_result :=
  RawResult (Some "Bail after charge sheet") (Some "W.P. No. 12 of 2020")
            (Some "https://www.manupatra.com/note/7") (Some (3 # 4)).

Definition forum_thread : raw_result :=
  RawResult (Some "Ask a lawyer") None
            (Some "https://forum.example.org/t/9") None.

(** A provider that answers every request with the same results. *)
Definition answering (items : list raw_result) : search_request -> result response :=
  fun _ => Ok (Response (Some items)).

Definition with_key (items : list raw_result) : world :=
  World (Some "tvly-key") (answering items).

Definition without_key (items : list raw_result) : world :=
  World None (answering items).

Definition searcher : LegalPrecedentSearcher := Searcher "tvly-key" ∅.

(** A corpus file that holds the empty JSON list, and a reader that knows
    that text only. *)
Definition corpus_setup : VectorDB.IPCVectorDBSetup :=
  VectorDB.Setup "data/ipc.json" "chroma_db" (Some "ipc_sections").

Definition disk : gmap string string := {[ "data/ipc.json" := "[]" ]}.

Definition reads_empty_list (text : string) : option (list (gmap string string)) :=
  if String.eqb text "[]" then Some [] else None.

End Samples.

(** ** Further notions and sample inputs *)

Module MoreNotions.



(** The keys of a document's metadata, each with the corpus field it
    mirrors. *)
Definition metadata_fields : list (string * string) :=
  [ ("section", "Section");
    ("section_title", "Section_Title");
    ("chapter", "Chapter");
    ("chapter_title", "Chapter_Title");
    ("description", "Description");
    ("offense_type", "Offense_Type");
    ("punishment", "Punishment");
    ("is_bailable", "Is_Bailable");
    ("is_cognizable", "Is_Cognizable");
    ("triable_by", "Triable_By") ].

(** The three procedural fields: the corpus field, its label in the text
    of a document, and its metadata key. *)
Definition procedural_flags : list (string * string * string) :=
  [ ("Is_Bailable", "Bailable", "is_bailable");
    ("Is_Cognizable", "Cognizable", "is_cognizable");
    ("Triable_By", "Triable By", "triable_by") ].

(** The keys of a record the statute searcher returns. *)
Definition projection_keys : list string :=
  [ "section"; "section_title"; "chapter"; "chapter_title"; "description";
    "punishment"; "is_bailable"; "is_cognizable"; "content" ].

(** The one call the statute tools make to the store. *)
Definition statute_call (directory : string) (environ : gmap string string)
           (query : string) (top_k : Z) (filter : option (gmap string string))
  : StatuteSearch.store_call :=
  {| StatuteSearch.persist_directory := directory;
     StatuteSearch.collection_name :=
       default "ipc_collection" (environ !! "IPC_COLLECTION_NAME");
     StatuteSearch.query := query;
     StatuteSearch.k := top_k;
     StatuteSearch.filter := filter |}.

(** The block of the listing written from a corpus record itself: every
    field as the record has it, an absent one as the empty text. *)
Definition record_block (i : nat) (s : gmap string string) : string :=
  let field name := default EmptyString (s !! name) in
  StatuteSearch.nl +:+ "**Result " +:+ pretty i +:+ ":**" +:+ StatuteSearch.nl
  +:+ "📗 **Section " +:+ field "Section" +:+ "**: "
  +:+ field "Section_Title" +:+ StatuteSearch.nl
  +:+ StatuteSearch.nl
  +:+ "**Chapter**: " +:+ field "Chapter" +:+ " - "
  +:+ field "Chapter_Title" +:+ StatuteSearch.nl
  +:+ StatuteSearch.nl
  +:+ "**Description**: " +:+ field "Description" +:+ StatuteSearch.nl
  +:+ StatuteSearch.nl
  +:+ "**Punishment**: " +:+ field "Punishment" +:+ StatuteSearch.nl
  +:+ StatuteSearch.nl
  +:+ "**Legal Details**:" +:+ StatuteSearch.nl
  +:+ "- Bailable: " +:+ field "Is_Bailable" +:+ StatuteSearch.nl
  +:+ "- Cognizable: " +:+ field "Is_Cognizable" +:+ StatuteSearch.nl
  +:+ "- Triable By: " +:+ field "Triable_By" +:+ StatuteSearch.nl
  +:+ "---".

(** The query [search_similar_cases] hands to [search_by_court]. *)
Definition similar_cases_query (case_facts : string) (ipc_sections : list string)
  : string :=
  case_facts
  +:+ match ipc_sections with
      | [] => EmptyString
      | _ => " " +:+ Text.join " " (map (fun s => "IPC-" +:+ s) ipc_sections)
      end
  +:+ " similar cases precedent India".

End MoreNotions.

Module MoreSamples.

(** A provider that fails on every request. *)
Definition failing (msg : string) : Precedent.world :=
  Precedent.World (Some "tvly-key")
                  (fun _ => Precedent.Raise (Precedent.ProviderError msg)).

(** A corpus record with some of its fields. *)
Definition murder : gmap string string :=
  list_to_map
    [ ("Section", "302"); ("Section_Title", "Punishment for murder");
      ("Description", "Whoever commits murder shall be punished.");
      ("Chapter", "XVI"); ("Punishment", "Death or imprisonment for life") ].

Definition theft : gmap string string :=
  list_to_map
    [ ("Section", "379"); ("Section_Title", "Punishment for theft");
      ("Is_Bailable", "No") ].

(** The settings the index builder asks for. *)
Definition builder_environ : gmap string string :=
  list_to_map
    [ ("IPC_JSON_PATH", "data/ipc.json"); ("PERSIST_DIRECTORY", "chroma_db");
      ("COLLECTION_NAME", "ipc_sections") ].

(** The settings the statute tools ask for. *)
Definition search_environ : gmap string string :=
  list_to_map [ ("PERSIST_DIRECTORY_PATH", "chroma_db") ].

(** A store that answers every call with the same documents. *)
Definition holding (docs : list VectorDB.Document) : StatuteSearch.world :=
  StatuteSearch.World search_environ {[ "chroma_db" ]}
                      (fun _ => StatuteSearch.Ok docs).


Definition connection : StatuteSearch.IPCSectionSearcher :=
  StatuteSearch.Searcher "chroma_db" "ipc_collection".

End MoreSamples.

(** ** Facts about the text operations *)

Module TextFacts.
Import Text.

Lemma prefix_split (d s : string) :
  String.prefix d s = true ↔ ∃ post, s = d +:+ post.
Proof.
  revert s. induction d as [|a d IH]; intros s.
  - split; [intros _; by exists s | by destruct s].
  - destruct s as [|b s]; simpl.
    + split; [done | intros [post H]; discriminate].
    + destruct (ascii_dec a b) as [->|Hne].
      * rewrite IH. split; intros [post H]; exists post; simpl in *; congruence.
      * split; [done | intros [post H]; simpl in H; congruence].
Qed.

Lemma contains_split (d s : string) :
  contains d s = true ↔ ∃ pre post, s = pre +:+ d +:+ post.
Proof.
  induction s as [|c s IH].
  - change (contains d EmptyString) with (String.prefix d EmptyString || false).
    rewrite orb_false_r, prefix_split. split.
    + intros [post H]. by exists EmptyString, post.
    + intros [pre [post H]]. destruct pre; [by exists post | discriminate].
  - change (contains d (String c s))
      with (String.prefix d (String c s) || contains d s).
    rewrite orb_true_iff, prefix_split, IH. split.
    + intros [[post H] | [pre [post H]]].
      * by exists EmptyString, post.
      * exists (String c pre), post. simpl. by rewrite H.
    + intros [pre [post H]]. destruct pre as [|c' pre]; simpl in H.
      * left. by exists post.
      * right. exists pre, post. congruence.
Qed.

Lemma lower_app (a b : string) : lower (a +:+ b) = lower a +:+ lower b.
Proof. induction a as [|c a IH]; simpl; [done | by rewrite IH]. Qed.

Lemma lower_split (s a b : string) :
  lower s = a +:+ b → ∃ s1 s2, s = s1 +:+ s2 ∧ lower s1 = a ∧ lower s2 = b.
Proof.
  revert s. induction a as [|c a IH]; intros s H; simpl in H.
  - by exists EmptyString, s.
  - destruct s as [|c' s]; [discriminate |]. simpl in H.
    injection H as Hc Hs. destruct (IH _ Hs) as (s1 & s2 & -> & H1 & H2).
    exists (String c' s1), s2. simpl. by rewrite Hc, H1.
Qed.

(** A case-insensitive occurrence: some stretch of the text lowers to the
    needle. *)
Lemma contains_lower_split (d s : string) :
  contains d (lower s) = true ↔
  ∃ pre mid post, s = pre +:+ mid +:+ post ∧ lower mid = d.
Proof.
  rewrite contains_split. split.
  - intros (p & q & H).
    destruct (lower_split _ _ _ H) as (pre & rest & -> & _ & H2).
    destruct (lower_split _ _ _ H2) as (mid & post & -> & H3 & _).
    by exists pre, mid, post.
  - intros (pre & mid & post & -> & <-).
    exists (lower pre), (lower post). by rewrite !lower_app.
Qed.

Lemma take_drop_chars (n : nat) (s : string) :
  take_chars n s +:+ drop_chars n s = s.
Proof.
  revert s. induction n as [|n IH]; intros [|c s]; simpl; try done.
  by rewrite IH.
Qed.

Lemma length_take_chars (n : nat) (s : string) :
  String.length (take_chars n s) = Nat.min n (String.length s).
Proof.
  revert s. induction n as [|n IH]; intros [|c s]; simpl; try done.
  by rewrite IH.
Qed.

Lemma lower_take_chars (n : nat) (s : string) :
  lower (take_chars n s) = take_chars n (lower s).
Proof.
  revert s. induction n as [|n IH]; intros [|c s]; simpl; try done.
  by rewrite IH.
Qed.

Lemma lower_drop_chars (n : nat) (s : string) :
  lower (drop_chars n s) = drop_chars n (lower s).
Proof.
  revert s. induction n as [|n IH]; intros [|c s]; simpl; try done.
Qed.

Lemma lower_char_idem (c : ascii) : lower_char (lower_char c) = lower_char c.
Proof. by destruct c as [[] [] [] [] [] [] [] []]. Qed.

Lemma append_assoc (a b c : string) : (a +:+ b) +:+ c = a +:+ b +:+ c.
Proof. induction a as [|x a IH]; simpl; [done | by rewrite IH]. Qed.

Lemma append_nil_r (a : string) : a +:+ EmptyString = a.
Proof. induction a as [|x a IH]; simpl; [done | by rewrite IH]. Qed.

Lemma replace_app (old : ascii) (new a b : string) :
  replace old new (a +:+ b) = replace old new a +:+ replace old new b.
Proof.
  induction a as [|c a IH]; simpl; [done |].
  destruct (Ascii.eqb c old); rewrite IH; [| done].
  by rewrite append_assoc.
Qed.

End TextFacts.

(** ** Facts about the matcher *)

Module ReFacts.
Import Text Re TextFacts.

Lemma give_back_some (rest : nat → option nat) (lo n r : nat) :
  give_back rest lo n = Some r →
  ∃ k m, lo ≤ k ∧ k ≤ n ∧ rest k = Some m ∧ r = k + m.
Proof.
  induction n as [|n IH]; simpl.
  - destruct (Nat.ltb_spec 0 lo); [done |].
    destruct (rest 0) as [m|] eqn:E; [| done].
    intros [= <-]. exists 0, m. repeat split; [lia | lia | done].
  - destruct (Nat.ltb_spec (S n) lo); [done |].
    destruct (rest (S n)) as [m|] eqn:E.
    + intros [= <-]. exists (S n), m. repeat split; [lia | lia | done].
    + intros H'. destruct (IH H') as (k & m & ? & ? & ? & ?).
      exists k, m. repeat split; [lia | lia | done | done].
Qed.

Lemma give_back_ext (f g : nat → option nat) (lo n : nat) :
  (∀ k, f k = g k) → give_back f lo n = give_back g lo n.
Proof.
  intros Hfg. induction n as [|n IH]; simpl; rewrite Hfg; [done |].
  by rewrite IH.
Qed.

Lemma run_positive (p : ascii → bool) (cap : option nat) (s : string) :
  1 ≤ run p cap s → ∃ c s', s = String c s'.
Proof.
  destruct s as [|c s]; [| by eauto].
  destruct cap as [[|n]|]; simpl; lia.
Qed.

(** A pattern whose first item asks for a character matches no empty
    stretch. *)
Lemma match_here_positive (ic : bool) (it : item) (re : pattern)
      (s : string) (len : nat) :
  1 ≤ lo it → match_here ic (it :: re) s = Some len →
  1 ≤ len ∧ ∃ c s', s = String c s'.
Proof.
  intros Hlo H. simpl in H.
  destruct (give_back_some _ _ _ _ H) as (k & m & ? & ? & _ & ->).
  split; [lia |]. apply (run_positive (accepts ic (set it)) (hi it)). lia.
Qed.

Lemma search_from_some (ic : bool) (re : pattern) (s : string)
      (p pos len : nat) :
  search_from ic re s p = Some (pos, len) →
  ∃ k, pos = p + k ∧ match_here ic re (drop_chars k s) = Some len.
Proof.
  revert p. induction s as [|c s IH]; intros p; simpl.
  - destruct (match_here ic re EmptyString) as [l|] eqn:E; [| done].
    intros [= <- <-]. exists 0. split; [lia | done].
  - destruct (match_here ic re (String c s)) as [l|] eqn:E.
    + intros [= <- <-]. exists 0. split; [lia | done].
    + intros H. destruct (IH _ H) as (k & -> & Hk).
      exists (S k). split; [lia | done].
Qed.

Lemma search_positive (ic : bool) (it : item) (re : pattern)
      (s group : string) :
  1 ≤ lo it → search ic (it :: re) s = Some group → group ≠ EmptyString.
Proof.
  intros Hlo. unfold search.
  destruct (search_from ic (it :: re) s 0) as [[pos len]|] eqn:E; [| done].
  intros [= <-].
  destruct (search_from_some _ _ _ _ _ _ E) as (k & -> & Hk).
  destruct (match_here_positive _ _ _ _ _ Hlo Hk) as (Hlen & c & s' & Hs).
  simpl. rewrite Hs. destruct len; [lia | done].
Qed.

(** *** Case does not matter under IGNORECASE *)

Lemma accepts_lower (cs : charset) (c : ascii) :
  accepts true cs (lower_char c) = accepts true cs c.
Proof.
  destruct cs as [l| | |]; simpl.
  - by rewrite lower_char_idem.
  - by destruct c as [[] [] [] [] [] [] [] []].
  - by destruct c as [[] [] [] [] [] [] [] []].
  - by destruct c as [[] [] [] [] [] [] [] []].
Qed.

Lemma run_lower (cs : charset) (cap : option nat) (s : string) :
  run (accepts true cs) cap (lower s) = run (accepts true cs) cap s.
Proof.
  revert cap. induction s as [|c s IH]; intros cap; [done |].
  destruct cap as [[|n]|]; simpl; [done | |];
    rewrite accepts_lower, IH; done.
Qed.

Lemma match_here_lower (re : pattern) (s : string) :
  match_here true re (lower s) = match_here true re s.
Proof.
  revert s. induction re as [|it re IH]; intros s; simpl; [done |].
  rewrite run_lower. apply give_back_ext. intros k.
  by rewrite <- lower_drop_chars, IH.
Qed.

Lemma search_from_lower (re : pattern) (s : string) (p : nat) :
  search_from true re (lower s) p = search_from true re s p.
Proof.
  revert p. induction s as [|c s IH]; intros p.
  - done.
  - change (lower (String c s)) with (String (lower_char c) (lower s)).
    change (String (lower_char c) (lower s)) with (lower (String c s)) at 1.
    simpl search_from at 2.
    change (search_from true re (lower (String c s)) p)
      with (match match_here true re (lower (String c s)) with
            | Some len => Some (p, len)
            | None => search_from true re (lower s) (S p)
            end).
    by rewrite match_here_lower, IH.
Qed.

(** Lowering the text lowers the match and nothing else. *)
Lemma search_lower (re : pattern) (s : string) :
  search true re (lower s) = lower <$> search true re s.
Proof.
  unfold search. rewrite search_from_lower.
  destruct (search_from true re s 0) as [[pos len]|]; simpl; [| done].
  by rewrite lower_take_chars, lower_drop_chars.
Qed.

End ReFacts.

(** ** Facts about the precedent tools *)

Module PrecedentFacts.
Import Precedent Notions TextFacts ReFacts.

(** *** The URL-trust test *)

Lemma is_legal_source_existsb (u : string) :
  _is_legal_source u = mentions LEGAL_SOURCES u.
Proof. by destruct u. Qed.

Lemma mentions_iff (domains : list string) (u : string) :
  mentions domains u = true ↔
  ∃ domain, domain ∈ domains ∧ Text.contains domain (Text.lower u) = true.
Proof.
  unfold mentions. rewrite existsb_exists.
  split; intros (d & Hd & Hc); exists d; by rewrite ?list_elem_of_In in *.
Qed.

(** *** The citation extractor *)

Lemma first_match_some (ps : list Re.pattern) (text c : string) :
  first_match ps text = Some c ↔
  ∃ i p, ps !! i = Some p ∧ Re.search true p text = Some c
         ∧ ∀ j q, j < i → ps !! j = Some q → Re.search true q text = None.
Proof.
  induction ps as [|p ps IH]; simpl.
  - split; [done | by intros (i & q & ? & _)].
  - destruct (Re.search true p text) as [g|] eqn:E.
    + split.
      * intros [= <-]. exists 0, p. repeat split; [done | intros; lia].
      * intros ([|i] & q & Hq & Hs & Hbefore); simpl in Hq.
        -- congruence.
        -- by rewrite (Hbefore 0 p) in E by (done || lia).
    + rewrite IH. split.
      * intros (i & q & Hq & Hs & Hbefore). exists (S i), q.
        repeat split; [done | done |].
        intros [|j] r Hj Hr; simpl in Hr; [congruence |].
        apply (Hbefore j); [lia | done].
      * intros ([|i] & q & Hq & Hs & Hbefore); simpl in Hq; [congruence |].
        exists i, q. repeat split; [done | done |].
        intros j r Hj Hr. apply (Hbefore (S j)); [lia | done].
Qed.

Lemma first_match_none (ps : list Re.pattern) (text : string) :
  first_match ps text = None ↔ ∀ p, p ∈ ps → Re.search true p text = None.
Proof.
  induction ps as [|p ps IH]; simpl.
  - split; [intros _ p Hp; by apply not_elem_of_nil in Hp | done].
  - destruct (Re.search true p text) as [g|] eqn:E.
    + split; [done |]. intros H. rewrite H in E; [done | by left].
    + rewrite IH. split.
      * intros H q Hq. apply elem_of_cons in Hq as [->|Hq]; [done | by apply H].
      * intros H q Hq. apply H. by right.
Qed.

Lemma first_match_lower (ps : list Re.pattern) (text : string) :
  first_match ps (Text.lower text) = Text.lower <$> first_match ps text.
Proof.
  induction ps as [|p ps IH]; simpl; [done |].
  rewrite search_lower. by destruct (Re.search true p text).
Qed.

(** Every citation pattern starts with an item that asks for a character. *)
Lemma patterns_positive (p : Re.pattern) :
  p ∈ patterns → ∃ it re, p = it :: re ∧ 1 ≤ Re.lo it.
Proof.
  unfold patterns. rewrite !elem_of_cons.
  intros [->|[->|[->|[->|H]]]]; [| | | | by apply not_elem_of_nil in H];
    eexists _, _; (split; [reflexivity | simpl; lia]).
Qed.

Lemma extract_nonempty (text c : string) :
  _extract_case_citation text = Some c → Text.truthy (Some c) = true.
Proof.
  unfold _extract_case_citation. rewrite first_match_some.
  intros (i & p & Hp & Hs & _).
  apply list_elem_of_lookup_2 in Hp.
  destruct (patterns_positive p Hp) as (it & re & -> & Hlo).
  pose proof (search_positive _ _ _ _ _ Hlo Hs). by destruct c.
Qed.

(** Title first, then content. *)
Lemma citation_order (a b : string) :
  Text.py_or (_extract_case_citation a) (_extract_case_citation b)
  = match _extract_case_citation a with
    | Some c => Some c
    | None => _extract_case_citation b
    end.
Proof.
  unfold Text.py_or.
  destruct (_extract_case_citation a) as [c|] eqn:E; [| done].
  by rewrite (extract_nonempty _ _ E).
Qed.

(** *** The loop of the precedent tool *)

Lemma collect_cons (m : Z) (item : raw_result) (rest : list raw_result)
      (acc : list (gmap string value)) (seen : gset string) :
  collect m (item :: rest) acc seen
  = if negb (trusted item) then collect m rest acc seen
    else if decide (title_of item ∈ seen) then collect m rest acc seen
    else if (Z.of_nat (length (acc ++ [to_precedent item])) >=? m)%Z
         then acc ++ [to_precedent item]
         else collect m rest (acc ++ [to_precedent item])
                      (seen ∪ {[ title_of item ]}).
Proof. reflexivity. Qed.

(** The loop gathers the trusted results, first of every title, until the
    list holds [cap m] of them. *)
Lemma collect_spec (m : Z) (raw : list raw_result)
      (acc : list (gmap string value)) (seen : gset string) :
  length acc < cap m →
  collect m raw acc seen
  = acc ++ (to_precedent <$> take (cap m - length acc)
                                  (dedup_titles seen (List.filter trusted raw))).
Proof.
  revert acc seen. induction raw as [|item rest IH]; intros acc seen Hlen.
  - simpl. by rewrite take_nil, app_nil_r.
  - rewrite collect_cons. simpl List.filter.
    destruct (trusted item) eqn:Et; simpl; [| by apply IH].
    destruct (decide (title_of item ∈ seen)) as [Hin|Hnew]; [by apply IH |].
    rewrite length_app. simpl length.
    destruct (cap m - length acc) as [|k] eqn:Ek; [lia |]. simpl.
    rewrite Z.geb_leb. destruct (Z.leb_spec m (Z.of_nat (length acc + 1))).
    + assert (k = 0) as -> by (unfold cap in *; lia). by rewrite take_0.
    + rewrite IH by (rewrite length_app; simpl; unfold cap in *; lia).
      rewrite length_app. simpl length.
      replace (cap m - (length acc + 1)) with k by lia.
      by rewrite <- app_assoc.
Qed.

Lemma collect_gathered (m : Z) (raw : list raw_result) :
  collect m raw [] ∅ = gathered m raw.
Proof.
  rewrite collect_spec by (unfold cap; simpl; lia).
  simpl. unfold gathered. by rewrite Nat.sub_0_r.
Qed.

(** *** What the dedup step keeps *)

Lemma filter_sublist (l : list raw_result) :
  (List.filter trusted l) `sublist_of` l.
Proof.
  induction l as [|x l IH]; simpl; [done |].
  destruct (trusted x); by constructor.
Qed.

Lemma dedup_titles_sublist (seen : gset string) (l : list raw_result) :
  (dedup_titles seen l) `sublist_of` l.
Proof.
  revert seen. induction l as [|x l IH]; intros seen; simpl; [done |].
  destruct (decide (title_of x ∈ seen)); by constructor.
Qed.

Lemma dedup_titles_fresh (seen : gset string) (l : list raw_result)
      (item : raw_result) :
  item ∈ dedup_titles seen l → title_of item ∉ seen.
Proof.
  revert seen. induction l as [|x l IH]; intros seen; simpl.
  - by intros ?%not_elem_of_nil.
  - destruct (decide (title_of x ∈ seen)); [by apply IH |].
    intros [->|Hin]%elem_of_cons; [done |].
    apply IH in Hin. set_solver.
Qed.

Lemma dedup_titles_NoDup (seen : gset string) (l : list raw_result) :
  NoDup (title_of <$> dedup_titles seen l).
Proof.
  revert seen. induction l as [|x l IH]; intros seen; simpl.
  - constructor.
  - destruct (decide (title_of x ∈ seen)); [by apply IH |].
    rewrite fmap_cons. constructor; [| by apply IH].
    intros (y & Hy & Hin)%list_elem_of_fmap.
    apply dedup_titles_fresh in Hin. set_solver.
Qed.

(** A result is kept exactly when it is trusted, its title is not taken
    yet, and no trusted result before it bears the same title. *)
Lemma kept_first (seen : gset string) (l : list raw_result) (item : raw_result) :
  item ∈ dedup_titles seen (List.filter trusted l) ↔
  ∃ i, l !! i = Some item ∧ trusted item = true ∧ (title_of item ∉ seen)
       ∧ (∀ j item', j < i → l !! j = Some item' → trusted item' = true →
                     title_of item' ≠ title_of item).
Proof.
  revert seen. induction l as [|x l IH]; intros seen; simpl.
  - split; [by intros ?%not_elem_of_nil | by intros (i & ? & _)].
  - destruct (trusted x) eqn:Ex; simpl.
    + destruct (decide (title_of x ∈ seen)) as [Hin|Hnew].
      * rewrite IH. split.
        -- intros (i & Hi & Ht & Hs & Hb). exists (S i).
           repeat split; [done | done | done |].
           intros [|j] y Hj Hy Hty; simpl in Hy.
           ++ injection Hy as <-. congruence.
           ++ apply (Hb j); [lia | done | done].
        -- intros ([|i] & Hi & Ht & Hs & Hb); simpl in Hi.
           ++ injection Hi as <-. done.
           ++ exists i. repeat split; [done | done | done |].
              intros j y Hj Hy Hty. apply (Hb (S j)); [lia | done | done].
      * rewrite elem_of_cons, IH. split.
        -- intros [->|(i & Hi & Ht & Hs & Hb)].
           ++ exists 0. repeat split; [done | done | intros; lia].
           ++ exists (S i). repeat split; [done | done | |].
              ** intros Hu. apply Hs, elem_of_union. by left.
              ** intros [|j] y Hj Hy Hty; simpl in Hy.
                 --- injection Hy as <-. intros Heq.
                     apply Hs, elem_of_union. right.
                     by apply elem_of_singleton.
                 --- apply (Hb j); [lia | done | done].
        -- intros ([|i] & Hi & Ht & Hs & Hb); simpl in Hi.
           ++ left. congruence.
           ++ right. exists i. repeat split; [done | done | |].
              ** intros Hu. apply elem_of_union in Hu as [Hu|Hu]; [done |].
                 apply elem_of_singleton in Hu.
                 apply (Hb 0 x); [lia | done | done | done].
              ** intros j y Hj Hy Hty. apply (Hb (S j)); [lia | done | done].
    + rewrite IH. split.
      * intros (i & Hi & Ht & Hs & Hb). exists (S i).
        repeat split; [done | done | done |].
        intros [|j] y Hj Hy Hty; simpl in Hy.
        -- injection Hy as <-. congruence.
        -- apply (Hb j); [lia | done | done].
      * intros ([|i] & Hi & Ht & Hs & Hb); simpl in Hi.
        -- injection Hi as <-. congruence.
        -- exists i. repeat split; [done | done | done |].
           intros j y Hj Hy Hty. apply (Hb (S j)); [lia | done | done].
Qed.

(** *** What the candidates carry *)

Lemma to_precedent_title (item : raw_result) :
  to_precedent item !! "title" = Some (VStr (title_of item)).
Proof. reflexivity. Qed.

Lemma to_precedent_summary (item : raw_result) :
  to_precedent item !! "summary"
  = Some (VStr (Text.take_chars 500 (get_str (content item)))).
Proof. reflexivity. Qed.

Lemma to_precedent_url (item : raw_result) :
  to_precedent item !! "url" = Some (of_optional (url item)).
Proof. reflexivity. Qed.

Lemma to_precedent_citation (item : raw_result) :
  to_precedent item !! "citation"
  = Some (of_optional
            (match _extract_case_citation (title_of item) with
             | Some c => Some c
             | None => _extract_case_citation (get_str (content item))
             end)).
Proof. rewrite <- citation_order. reflexivity. Qed.

Lemma to_precedent_source (item : raw_result) :
  to_precedent item !! "source"
  = Some (VStr (default "Unknown"
                  (List.find (fun d => Text.contains d (get_str (url item)))
                             LEGAL_SOURCES))).
Proof. reflexivity. Qed.

Lemma trusted_url (item : raw_result) :
  trusted item = true →
  ∃ u, url item = Some u ∧ _is_legal_source u = true.
Proof.
  unfold trusted. destruct (url item) as [u|]; simpl; [by eauto | done].
Qed.

(** *** Running the precedent tool *)

Lemma search_without_key (w : world) (q : string) (ipc : option string)
      (m : Z) (log : list search_request) :
  Text.truthy (TAVILY_API_KEY w) = false →
  search_legal_precedents w q ipc m log = (Ok (Message missing_key_message), log).
Proof. intros H. unfold search_legal_precedents. by rewrite H. Qed.

Lemma search_with_key (w : world) (q : string) (ipc : option string)
      (m : Z) (log : list search_request) :
  Text.truthy (TAVILY_API_KEY w) = true →
  search_legal_precedents w q ipc m log
  = (match tavily w (precedent_request q ipc m) with
     | Ok resp =>
         Ok (match gathered m (default [] (results resp)) with
             | [] => Message no_results_message
             | _ => Formatted (gathered m (default [] (results resp)))
             end)
     | Raise e => Ok (Message (search_error_message e))
     end, log ++ [precedent_request q ipc m]).
Proof.
  intros H. unfold search_legal_precedents. rewrite H. simpl.
  unfold try_except, mbind, M_bind, bind, client_search.
  fold (precedent_request q ipc m).
  destruct (tavily w (precedent_request q ipc m)) as [resp|e]; [| done].
  rewrite collect_gathered.
  by destruct (gathered m (default [] (results resp))).
Qed.

(** Whatever listing the tool returns is the gathering of the provider's
    answer to the one request it sent. *)
Lemma search_formatted (w : world) (q : string) (ipc : option string)
      (m : Z) (log : list search_request) (found : list (gmap string value)) :
  (search_legal_precedents w q ipc m log).1 = Ok (Formatted found) →
  ∃ resp, tavily w (precedent_request q ipc m) = Ok resp
          ∧ found = gathered m (default [] (results resp)).
Proof.
  destruct (Text.truthy (TAVILY_API_KEY w)) eqn:Hk.
  - rewrite search_with_key by done. simpl.
    destruct (tavily w (precedent_request q ipc m)) as [resp|e]; [| done].
    intros Hf. exists resp. split; [done |].
    destruct (gathered m (default [] (results resp))); [done | congruence].
  - by rewrite search_without_key.
Qed.

Lemma take_elem {A} (n : nat) (l : list A) (x : A) : x ∈ take n l → x ∈ l.
Proof.
  rewrite elem_of_take. intros (i & Hi & _). by eapply list_elem_of_lookup_2.
Qed.

Lemma gathered_elem (m : Z) (raw : list raw_result) (c : gmap string value) :
  c ∈ gathered m raw →
  ∃ item, c = to_precedent item
          ∧ item ∈ dedup_titles ∅ (List.filter trusted raw).
Proof.
  unfold gathered. intros (item & -> & Hin)%list_elem_of_fmap.
  exists item. split; [done |]. eapply take_elem, Hin.
Qed.

(** *** The court-level searcher *)

Lemma court_loop_spec (lvl : string) (items : list raw_result)
      (acc : list (gmap string value)) :
  court_loop lvl items acc
  = acc ++ (court_result lvl <$> List.filter trusted items).
Proof.
  revert acc. induction items as [|item rest IH]; intros acc; simpl.
  - by rewrite app_nil_r.
  - fold (trusted item). destruct (trusted item); simpl; [| by apply IH].
    by rewrite IH, <- app_assoc.
Qed.

Lemma search_by_court_run (w : world) (self : LegalPrecedentSearcher)
      (q lvl : string) (m : Z) (log : list search_request) :
  search_by_court w self q lvl m log
  = (match tavily w (court_request q lvl m) with
     | Ok resp =>
         Ok (slice_to m (court_result lvl
                           <$> List.filter trusted (default [] (results resp))))
     | Raise e => Raise e
     end, log ++ [court_request q lvl m]).
Proof.
  unfold search_by_court, mbind, M_bind, bind, client_search.
  fold (court_request q lvl m).
  destruct (tavily w (court_request q lvl m)) as [resp|e]; [| done].
  by rewrite court_loop_spec.
Qed.

Lemma slice_to_elem {A} (n : Z) (l : list A) (x : A) :
  x ∈ slice_to n l → x ∈ l.
Proof.
  unfold slice_to. destruct (0 <=? n)%Z; apply take_elem.
Qed.

End PrecedentFacts.

(** ** The claims *)

Import Precedent Notions Samples TextFacts ReFacts PrecedentFacts.

(** *** The URL-trust check *)

(** C10. [_is_legal_source] accepts a URL exactly when some stretch of it,
    wherever it lies, lowers to a trusted domain; it rejects the empty URL
    and, at its call sites, a result without a URL; and it accepts a URL
    whose host is untrusted and whose path holds a trusted domain. *)
Theorem is_legal_source_substring_anywhere :
  (∀ u, _is_legal_source u = true ↔
        ∃ domain pre mid post,
          domain ∈ LEGAL_SOURCES ∧ u = pre +:+ mid +:+ post
          ∧ Text.lower mid = domain)
  ∧ _is_legal_source EmptyString = false
  ∧ (∀ item, url item = None → trusted item = false)
  ∧ (∃ u, url_host u = "evil.example"
          ∧ mentions LEGAL_SOURCES (url_host u) = false
          ∧ _is_legal_source u = true).
Proof.
  repeat split.
  - rewrite is_legal_source_existsb, mentions_iff.
    intros (d & Hd & Hc). apply contains_lower_split in Hc.
    destruct Hc as (pre & mid & post & Hu & Hm). by exists d, pre, mid, post.
  - intros (d & pre & mid & post & Hd & Hu & Hm).
    rewrite is_legal_source_existsb, mentions_iff. exists d.
    split; [done |]. apply contains_lower_split. by exists pre, mid, post.
  - intros item H. unfold trusted. by rewrite H.
  - exists "https://evil.example/indiankanoon.org/doc/1". by vm_compute.
Qed.

(** *** Citation extraction *)

(** C6. The extractor tries the four patterns of the source in their order
    and returns the match of the first that matches; the tool asks the title
    first and the content only when the title gives nothing; letter case
    does not matter; the title of the specification's example gives its
    citation, and a text that no pattern matches gives none. *)
Theorem citation_extraction_order :
  mapM Re.compile pattern_sources = Some patterns
  ∧ (∀ text c,
        _extract_case_citation text = Some c ↔
        ∃ i p, patterns !! i = Some p ∧ Re.search true p text = Some c
               ∧ ∀ j q, j < i → patterns !! j = Some q →
                        Re.search true q text = None)
  ∧ (∀ item,
        to_precedent item !! "citation"
        = Some (of_optional
                  (match _extract_case_citation (title_of item) with
                   | Some c => Some c
                   | None => _extract_case_citation (get_str (content item))
                   end)))
  ∧ (∀ text,
        _extract_case_citation (Text.lower text)
        = Text.lower <$> _extract_case_citation text)
  ∧ _extract_case_citation "Ref: (2023) 4 SCC 221" = Some "(2023) 4 SCC 221"
  ∧ _extract_case_citation "see AIR 2024 SC 123." = Some "AIR 2024 SC 123"
  ∧ _extract_case_citation "in 2024 (5) ALT 123," = Some "2024 (5) ALT 123"
  ∧ _extract_case_citation "W.P. No. 123 of 2024" = Some "W.P. No. 123 of 2024"
  ∧ _extract_case_citation "AIR 2024 SC 123, (2023) 4 SCC 221"
    = Some "(2023) 4 SCC 221"
  ∧ _extract_case_citation "ref: (2023) 4 scc 221" = Some "(2023) 4 scc 221"
  ∧ (∀ text, (∀ p, p ∈ patterns → Re.search true p text = None) →
             _extract_case_citation text = None)
  ∧ _extract_case_citation "State v. Kumar" = None.
Proof.
  split; [reflexivity |].
  split; [intros text c; apply first_match_some |].
  split; [apply to_precedent_citation |].
  split; [intros text; apply first_match_lower |].
  do 6 (split; [by vm_compute |]).
  split; [| by vm_compute].
  intros text H. by apply first_match_none.
Qed.

(** *** The missing credential *)

(** C9. With [TAVILY_API_KEY] unset the tool returns the missing-credential
    message as an ordinary result, and the log of requests is as it was. *)
Theorem missing_key_is_reported (w : world) (q : string) (ipc : option string)
        (m : Z) (log : list search_request) :
  TAVILY_API_KEY w = None →
  search_legal_precedents w q ipc m log
  = (Ok (Message "❌ Error: 'TAVILY_API_KEY' not found in .env file"), log).
Proof. intros H. apply search_without_key. by rewrite H. Qed.

Lemma missing_key_is_reported_witness :
  search_legal_precedents (without_key [kanoon_murder]) "bail" (Some "302,300") 5 []
  = (Ok (Message "❌ Error: 'TAVILY_API_KEY' not found in .env file"), []).
Proof.
  apply (missing_key_is_reported (without_key [kanoon_murder])).
  reflexivity.
Defined.

(** *** The precedent search tool *)

Lemma gathered_length (m : Z) (raw : list raw_result) :
  length (gathered m raw) ≤ cap m.
Proof. unfold gathered. rewrite length_fmap, length_take. lia. Qed.

(** From one candidate on, the bound is [max_results] itself. *)
Lemma gathered_at_most (m : Z) (raw : list raw_result) :
  (1 ≤ m)%Z → (Z.of_nat (length (gathered m raw)) ≤ m)%Z.
Proof. intros Hm. pose proof (gathered_length m raw). unfold cap in *. lia. Qed.

(** The candidates follow the order of the upstream response. *)
Lemma gathered_order (m : Z) (raw : list raw_result) :
  ∃ kept, gathered m raw = to_precedent <$> kept ∧ kept `sublist_of` raw.
Proof.
  eexists. split; [reflexivity |].
  etrans; [apply sublist_take |].
  etrans; [apply dedup_titles_sublist | apply filter_sublist].
Qed.

(** Every candidate carries the first 500 characters of the content. *)
Lemma gathered_summary (m : Z) (raw : list raw_result) (c : gmap string value) :
  c ∈ gathered m raw →
  ∃ item, item ∈ raw
          ∧ c !! "summary"
            = Some (VStr (Text.take_chars 500 (get_str (content item)))).
Proof.
  intros (item & -> & Hin)%gathered_elem. exists item. split; [| done].
  eapply elem_of_sublist; [done |].
  etrans; [apply dedup_titles_sublist | apply filter_sublist].
Qed.

(** C5. The listing the tool returns never holds two candidates of one
    title; every candidate comes from the first trusted result of the
    response that bears its title, titles being compared as strings; and
    unless the listing is full, every such first result is in it. *)
Theorem titles_are_distinct (w : world) (q : string) (ipc : option string)
        (m : Z) (log : list search_request) (found : list (gmap string value)) :
  (search_legal_precedents w q ipc m log).1 = Ok (Formatted found) →
  ∃ resp, tavily w (precedent_request q ipc m) = Ok resp
  ∧ NoDup ((λ c, c !! "title") <$> found)
  ∧ (∀ c, c ∈ found →
       ∃ i item,
         default [] (results resp) !! i = Some item
         ∧ trusted item = true
         ∧ c = to_precedent item
         ∧ c !! "title" = Some (VStr (title_of item))
         ∧ ∀ j item', j < i → default [] (results resp) !! j = Some item' →
                      trusted item' = true → title_of item' ≠ title_of item)
  ∧ (∀ i item,
       default [] (results resp) !! i = Some item →
       trusted item = true →
       (∀ j item', j < i → default [] (results resp) !! j = Some item' →
                   trusted item' = true → title_of item' ≠ title_of item) →
       length found < cap m →
       to_precedent item ∈ found).
Proof.
  intros (resp & Hresp & ->)%search_formatted. exists resp.
  split; [done |]. set (raw := default [] (results resp)).
  split; [| split].
  - assert ((λ c : gmap string value, c !! "title") <$> gathered m raw
            = (λ t, Some (VStr t))
                <$> (title_of <$> take (cap m)
                       (dedup_titles ∅ (List.filter trusted raw)))) as ->.
    { unfold gathered. rewrite <- !list_fmap_compose.
      by apply list_fmap_ext. }
    apply NoDup_fmap_2; [by intros x y [= ->] |].
    rewrite fmap_take.
    eapply sublist_NoDup; [apply dedup_titles_NoDup | apply sublist_take].
  - intros c (item & -> & Hin)%gathered_elem.
    apply kept_first in Hin as (i & Hi & Ht & _ & Hb).
    exists i, item. by repeat split.
  - intros i item Hi Ht Hb Hlen.
    assert (item ∈ dedup_titles ∅ (List.filter trusted raw)) as Hin.
    { apply kept_first. exists i. repeat split; [done | done | | done].
      apply not_elem_of_empty. }
    unfold gathered in *. rewrite length_fmap, length_take in Hlen.
    rewrite take_ge by lia. by apply list_elem_of_fmap_2.
Qed.

Lemma titles_are_distinct_witness :
  (search_legal_precedents
     (with_key [kanoon_murder; blog_post; casemine_copy; casemine_upper])
     "bail" None 5 []).1
  = Ok (Formatted [to_precedent kanoon_murder; to_precedent casemine_upper])
  ∧ NoDup ((λ c : gmap string value, c !! "title")
             <$> [to_precedent kanoon_murder; to_precedent casemine_upper]).
Proof.
  assert ((search_legal_precedents
             (with_key [kanoon_murder; blog_post; casemine_copy; casemine_upper])
             "bail" None 5 []).1
          = Ok (Formatted [to_precedent kanoon_murder;
                           to_precedent casemine_upper])) as H
    by (vm_compute; reflexivity).
  split; [exact H |].
  destruct (titles_are_distinct _ _ _ _ _ _ H) as (resp & _ & Hdistinct & _).
  exact Hdistinct.
Defined.

(** C7. At [max_results = 0] the loop appends the first trusted result
    before it looks at the bound, so the tool returns one candidate where at
    most zero were asked for. *)
Theorem zero_max_results_returns_one :
  (search_legal_precedents (with_key [kanoon_murder; casemine_upper])
                           "bail" None 0 []).1
  = Ok (Formatted [to_precedent kanoon_murder])
  ∧ ¬ (Z.of_nat (length [to_precedent kanoon_murder]) ≤ 0)%Z.
Proof. split; [by vm_compute | simpl; lia]. Qed.

(** Five results, three of them trusted, and a bound of two: the first two
    trusted results come back. *)
Example two_of_five :
  (search_legal_precedents
     (with_key [blog_post; kanoon_murder; forum_thread; casemine_upper;
                manupatra_note])
     "bail" None 2 []).1
  = Ok (Formatted [to_precedent kanoon_murder; to_precedent casemine_upper]).
Proof. by vm_compute. Qed.

(** For every bound below one the tool gathers as if it were one. *)
Lemma cap_below_one (m : Z) (raw : list raw_result) :
  (m ≤ 1)%Z → gathered m raw = gathered 1 raw.
Proof.
  intros Hm. unfold gathered, cap. by replace (Z.max 1 m) with 1%Z by lia.
Qed.

(** *** The court-level searcher *)

Lemma court_result_fields (lvl : string) (item : raw_result) :
  court_result lvl item !! "citation" = None
  ∧ court_result lvl item !! "source" = None
  ∧ court_result lvl item !! "url" = Some (of_optional (url item))
  ∧ court_result lvl item !! "relevance_score"
    = Some (from_option VFloat (VInt 0) (score item)).
Proof. by repeat split. Qed.

(** C8. For a bound that is not negative the court-level searcher returns
    the first [max_results] trusted results of the response, one candidate
    each, duplicates of a title included; a candidate carries the score of
    its result (0 when the result has none) and no citation field. *)
Theorem court_search_keeps_score_and_duplicates
        (w : world) (self : LegalPrecedentSearcher) (q lvl : string) (m : Z)
        (log : list search_request) (resp : response) :
  (0 ≤ m)%Z →
  tavily w (court_request q lvl m) = Ok resp →
  ∃ found,
    (search_by_court w self q lvl m log).1 = Ok found
    ∧ found = take (Z.to_nat m)
                   (court_result lvl
                      <$> List.filter trusted (default [] (results resp)))
    ∧ length found
      = Nat.min (Z.to_nat m)
                (length (List.filter trusted (default [] (results resp))))
    ∧ (Z.of_nat (length found) ≤ m)%Z
    ∧ (∀ c, c ∈ found →
         c !! "citation" = None
         ∧ ∃ item, item ∈ default [] (results resp)
                   ∧ trusted item = true
                   ∧ c = court_result lvl item
                   ∧ c !! "relevance_score"
                     = Some (from_option VFloat (VInt 0) (score item)))
    ∧ (∀ a b, results resp = Some [a; b] →
              trusted a = true → trusted b = true → title a = title b →
              (2 ≤ m)%Z →
              found = [court_result lvl a; court_result lvl b]).
Proof.
  intros Hm Hresp. eexists. rewrite search_by_court_run, Hresp. simpl.
  unfold slice_to. destruct (Z.leb_spec 0 m) as [_|]; [| lia].
  split; [reflexivity |]. split; [reflexivity |].
  split; [by rewrite length_take, length_fmap |].
  split; [rewrite length_take; lia |].
  split.
  - intros c Hc%take_elem. apply list_elem_of_fmap in Hc as (item & -> & Hin).
    split; [done |]. exists item.
    apply list_elem_of_In, filter_In in Hin as [Hin Ht].
    apply list_elem_of_In in Hin. by repeat split.
  - intros a b Hab Ha Hb _ Hm2. rewrite Hab. simpl.
    rewrite Ha, Hb. simpl.
    by rewrite take_ge by (simpl; lia).
Qed.

(** X14. A negative bound is a slice that counts from the end: the
    court-level searcher then drops that many trusted results from the end
    of the list and returns the rest. *)
Lemma court_search_negative_bound
      (w : world) (self : LegalPrecedentSearcher) (q lvl : string) (m : Z)
      (log : list search_request) (resp : response) :
  (m < 0)%Z →
  tavily w (court_request q lvl m) = Ok resp →
  (search_by_court w self q lvl m log).1
  = Ok (take (length (List.filter trusted (default [] (results resp)))
              - Z.to_nat (- m))
             (court_result lvl
                <$> List.filter trusted (default [] (results resp)))).
Proof.
  intros Hm Hresp. rewrite search_by_court_run, Hresp. simpl.
  unfold slice_to. destruct (Z.leb_spec 0 m) as [|_]; [lia |].
  by rewrite length_fmap.
Qed.

Lemma court_search_keeps_score_and_duplicates_witness :
  (search_by_court (with_key [casemine_copy; blog_post; casemine_copy])
                   searcher "bail" "all" 5 []).1
  = Ok [court_result "all" casemine_copy; court_result "all" casemine_copy].
Proof.
  destruct (court_search_keeps_score_and_duplicates
              (with_key [casemine_copy; blog_post; casemine_copy])
              searcher "bail" "all" 5 []
              (Response (Some [casemine_copy; blog_post; casemine_copy])))
    as (found & Hrun & -> & _); [lia | reflexivity |].
  exact Hrun.
Defined.

(** *** The search string *)

Lemma replace_comma_free (new s : string) :
  Text.contains "," s = false → Text.replace "," new s = s.
Proof.
  induction s as [|c s IH]; [done |].
  change (Text.contains "," (String c s))
    with (String.prefix "," (String c s) || Text.contains "," s).
  intros [Hp Hc]%orb_false_elim. simpl in *.
  destruct (ascii_dec "," c) as [<-|Hne]; [by destruct s |].
  destruct (Ascii.eqb_spec c ","); [congruence |]. by rewrite IH.
Qed.

(** Identifiers given as a comma-separated list come out joined by OR. *)
Lemma replace_join (new : string) (ids : list string) :
  Forall (λ id, Text.contains "," id = false) ids →
  Text.replace "," new (Text.join "," ids) = Text.join new ids.
Proof.
  induction ids as [|p ids IH]; [done |].
  intros [Hp Hids]%Forall_cons. destruct ids as [|r rest].
  - by apply replace_comma_free.
  - change (Text.join "," (p :: r :: rest))
      with (p +:+ "," +:+ Text.join "," (r :: rest)).
    change (Text.join new (p :: r :: rest))
      with (p +:+ new +:+ Text.join new (r :: rest)).
    rewrite !replace_app, replace_comma_free, IH by done.
    simpl. by rewrite append_nil_r.
Qed.

(** C4, as stated, fails for the query [bail] without statute identifiers:
    the string sent is not the stated composition, the domain clause is not
    appended to a free text that ends with the stated terms, and the string
    does not end with the stated terms either. *)
Lemma search_query_not_as_stated :
  search_query_of "bail" None ≠ search_query_as_stated "bail" None
  ∧ ¬ clause_appended "bail" (search_query_of "bail" None)
  ∧ Text.is_suffix boosting_terms_as_stated (search_query_of "bail" None)
    = false.
Proof.
  split; [by vm_compute |]. split; [| by vm_compute].
  intros (free_text & rest & Hsent & Hq & _).
  apply prefix_split in Hq as [tail ->].
  vm_compute in Hsent. discriminate.
Qed.

(** C4, amended. With a credential the tool sends one request; its query is
    the clause over the first three trusted domains in parentheses, then the
    raw query, then the statute identifiers when given, then the terms
    [judgment precedent case law India]; the request carries all of
    [LEGAL_SOURCES] as [include_domains]. *)
Theorem search_query_composition (w : world) (q : string)
        (ipc : option string) (m : Z) (log : list search_request) :
  Text.truthy (TAVILY_API_KEY w) = true →
  (search_legal_precedents w q ipc m log).2
  = log ++ [precedent_request q ipc m]
  ∧ query (precedent_request q ipc m)
    = "(site:indiankanoon.org OR site:sci.gov.in OR site:judgments.ecourts.gov.in) "
      +:+ q
      +:+ (if Text.truthy ipc
           then " IPC " +:+ Text.replace "," " OR IPC " (get_str ipc)
           else EmptyString)
      +:+ " judgment precedent case law India"
  ∧ include_domains (precedent_request q ipc m) = Some LEGAL_SOURCES
  ∧ max_results (precedent_request q ipc m) = (m * 2)%Z
  ∧ (∀ ids, Forall (λ id, Text.contains "," id = false) ids →
            Text.replace "," " OR IPC " (Text.join "," ids)
            = Text.join " OR IPC " ids).
Proof.
  intros Hkey. split; [by rewrite search_with_key |].
  split; [| split; [done | split; [done | apply replace_join]]].
  simpl. unfold search_query_of.
  destruct (Text.truthy ipc); reflexivity.
Qed.

Lemma search_query_composition_witness :
  (search_legal_precedents (with_key [kanoon_murder]) "bail" (Some "302,300")
                           5 []).2
  = [ {| query :=
           "(site:indiankanoon.org OR site:sci.gov.in OR site:judgments.ecourts.gov.in) bail IPC 302 OR IPC 300 judgment precedent case law India";
         max_results := 10;
         search_depth := "advanced";
         include_domains := Some LEGAL_SOURCES |} ].
Proof.
  destruct (search_query_composition (with_key [kanoon_murder]) "bail"
              (Some "302,300") 5 []) as (Hlog & _); [reflexivity |].
  exact Hlog.
Defined.

(** *** Which candidates are returned *)

Lemma court_result_url_trusted (lvl : string) (item : raw_result) :
  trusted item = true → url_trusted (court_result lvl item).
Proof.
  intros (u & Hu & Hl)%trusted_url. exists u.
  destruct (court_result_fields lvl item) as (_ & _ & -> & _).
  by rewrite Hu.
Qed.

Lemma to_precedent_url_trusted (item : raw_result) :
  trusted item = true → url_trusted (to_precedent item).
Proof.
  intros (u & Hu & Hl)%trusted_url. exists u.
  by rewrite to_precedent_url, Hu.
Qed.

Lemma find_in_sources (f : string → bool) (d : string) :
  List.find f LEGAL_SOURCES = Some d → d ∈ LEGAL_SOURCES.
Proof. intros [H _]%find_some. by apply list_elem_of_In. Qed.

(** C3, as stated, fails for the court level [district]: a result on
    casemine.com is returned, and its URL mentions no domain of the entry of
    [district] in the table. *)
Lemma district_search_returns_other_domain :
  ¬ ∀ found,
      (search_by_court (with_key [casemine_copy]) searcher
                       "bail" "district" 5 []).1 = Ok found →
      Forall (url_in_court_subset "district") found.
Proof.
  intros H.
  specialize (H [court_result "district" casemine_copy] eq_refl).
  apply Forall_cons in H as [(u & Hu & Hm) _].
  vm_compute in Hu. injection Hu as <-. by vm_compute in Hm.
Qed.

(** C3, amended. Whatever the court level, every candidate of the
    court-level searcher has a URL that passes the URL-trust test over all of
    [LEGAL_SOURCES]; the entry of the table only makes the clause of the
    query, from its first three domains, and the request carries no domain
    allowlist. *)
Theorem court_search_filters_on_all_sources
        (w : world) (self : LegalPrecedentSearcher) (q lvl : string) (m : Z)
        (log : list search_request) (found : list (gmap string value)) :
  (search_by_court w self q lvl m log).1 = Ok found →
  Forall url_trusted found
  ∧ (search_by_court w self q lvl m log).2 = log ++ [court_request q lvl m]
  ∧ query (court_request q lvl m)
    = "(" +:+ Text.join " OR "
                (map (λ domain, "site:" +:+ domain) (take 3 (domains_of lvl)))
      +:+ ") " +:+ q +:+ " judgment India"
  ∧ include_domains (court_request q lvl m) = None
  ∧ domains_of "supreme"
    = ["sci.gov.in"; "indiankanoon.org/search/?formInput=doctypes:sc"]
  ∧ domains_of "high"
    = ["hcservices.ecourts.gov.in";
       "indiankanoon.org/search/?formInput=doctypes:hc"]
  ∧ domains_of "district" = ["judgments.ecourts.gov.in"].
Proof.
  rewrite search_by_court_run. simpl.
  destruct (tavily w (court_request q lvl m)) as [resp|e]; [| done].
  intros [= <-]. repeat split.
  apply Forall_forall. intros c Hc%slice_to_elem.
  apply list_elem_of_fmap in Hc as (item & -> & Hin).
  apply list_elem_of_In, filter_In in Hin as [_ Ht].
  by apply court_result_url_trusted.
Qed.

Lemma court_search_filters_on_all_sources_witness :
  Forall url_trusted [court_result "district" casemine_copy].
Proof.
  destruct (court_search_filters_on_all_sources
              (with_key [casemine_copy; blog_post]) searcher
              "bail" "district" 5 []
              [court_result "district" casemine_copy])
    as (Htrusted & _); [by vm_compute |].
  exact Htrusted.
Defined.

(** C1, as stated, fails for the court-level searcher: the candidate it
    returns has no source field at all. *)
Lemma court_candidate_has_no_source :
  ¬ ∀ found,
      (search_by_court (with_key [kanoon_murder]) searcher
                       "bail" "all" 5 []).1 = Ok found →
      Forall source_domain_trusted found.
Proof.
  intros H.
  specialize (H [court_result "all" kanoon_murder] eq_refl).
  apply Forall_cons in H as [(d & Hd & _) _].
  by vm_compute in Hd.
Qed.

(** C1, amended. Every candidate of either retriever has a URL that passes
    the URL-trust test.  A candidate of the court-level searcher has no
    source field.  A candidate of the precedent tool whose URL holds a
    trusted domain as it is written has a trusted domain as its source. *)
Theorem returned_urls_are_trusted :
  (∀ w q ipc m log found,
     (search_legal_precedents w q ipc m log).1 = Ok (Formatted found) →
     Forall (λ c, url_trusted c
                  ∧ ((∃ u domain, c !! "url" = Some (VStr u)
                                  ∧ domain ∈ LEGAL_SOURCES
                                  ∧ Text.contains domain u = true) →
                     source_domain_trusted c))
            found)
  ∧ (∀ w self q lvl m log found,
       (search_by_court w self q lvl m log).1 = Ok found →
       Forall (λ c, url_trusted c ∧ c !! "source" = None) found).
Proof.
  split.
  - intros w q ipc m log found (resp & _ & ->)%search_formatted.
    apply Forall_forall. intros c (item & -> & Hin)%gathered_elem.
    apply kept_first in Hin as (_ & _ & Ht & _).
    split; [by apply to_precedent_url_trusted |].
    intros (u & d & Hu & Hd & Hc).
    rewrite to_precedent_url in Hu.
    destruct (url item) as [u'|] eqn:Eu; [| done]. injection Hu as ->.
    unfold source_domain_trusted. rewrite to_precedent_source, Eu.
    change (get_str (Some u)) with u.
    destruct (List.find (λ d0, Text.contains d0 u) LEGAL_SOURCES)
      as [d'|] eqn:Ef.
    + exists d'. split; [done |]. by eapply find_in_sources.
    + apply list_elem_of_In in Hd.
      by rewrite (find_none _ _ Ef d Hd) in Hc.
  - intros w self q lvl m log found. rewrite search_by_court_run. simpl.
    destruct (tavily w (court_request q lvl m)) as [resp|e]; [| done].
    intros [= <-]. apply Forall_forall. intros c Hc%slice_to_elem.
    apply list_elem_of_fmap in Hc as (item & -> & Hin).
    apply list_elem_of_In, filter_In in Hin as [_ Ht].
    split; [by apply court_result_url_trusted | done].
Qed.

Lemma returned_urls_are_trusted_witness :
  Forall (λ c : gmap string value,
            url_trusted c
            ∧ ((∃ u domain, c !! "url" = Some (VStr u)
                            ∧ domain ∈ LEGAL_SOURCES
                            ∧ Text.contains domain u = true) →
               source_domain_trusted c))
         [to_precedent kanoon_murder]
  ∧ Forall (λ c : gmap string value, url_trusted c ∧ c !! "source" = None)
           [court_result "all" kanoon_murder].
Proof.
  destruct returned_urls_are_trusted as [Hsearch Hcourt]. split.
  - apply (Hsearch (with_key [kanoon_murder; blog_post]) "bail" None 5%Z []).
    by vm_compute.
  - apply (Hcourt (with_key [kanoon_murder; blog_post]) searcher
                  "bail" "all" 5%Z []).
    by vm_compute.
Defined.

(** The case the amended C1 leaves aside: the loop accepts a URL after
    lowering it and looks for the source in the URL as written, so a URL in
    capitals passes and gets the source [Unknown]. *)
Lemma mixed_case_url_has_unknown_source :
  (search_legal_precedents (with_key [kanoon_mixed_case]) "bail" None 5 []).1
  = Ok (Formatted [to_precedent kanoon_mixed_case])
  ∧ to_precedent kanoon_mixed_case !! "source" = Some (VStr "Unknown").
Proof. split; by vm_compute. Qed.

(** *** Loading the corpus *)

(** C2. [load_ipc_data] never returns: without the file it raises
    FileNotFoundError, on text that is not valid JSON the decoder's error,
    and on a file with valid JSON a NameError, because the line that reports
    the count reads the name [ipc_data], which the method does not bind.
    [setup] then raises the same and leaves the index as it was, so no record
    is turned into a document. *)
Theorem load_ipc_data_never_returns :
  (∀ json_load files self,
     VectorDB.load_ipc_data json_load files self
     = match files !! VectorDB.ipc_json_path self with
       | None =>
           VectorDB.Raise
             (VectorDB.FileNotFoundError
                ("IPC JSON file not found at " +:+ VectorDB.ipc_json_path self))
       | Some text =>
           match json_load text with
           | None => VectorDB.Raise VectorDB.JSONDecodeError
           | Some _ => VectorDB.Raise (VectorDB.NameError "ipc_data")
           end
       end)
  ∧ (∀ json_load files self index reset,
       ∃ e, VectorDB.setup json_load files self index reset
            = (VectorDB.Raise e, index))
  ∧ VectorDB.load_ipc_data reads_empty_list disk corpus_setup
    = VectorDB.Raise (VectorDB.NameError "ipc_data").
Proof.
  assert (∀ json_load files self,
            VectorDB.load_ipc_data json_load files self
            = match files !! VectorDB.ipc_json_path self with
              | None =>
                  VectorDB.Raise
                    (VectorDB.FileNotFoundError
                       ("IPC JSON file not found at "
                          +:+ VectorDB.ipc_json_path self))
              | Some text =>
                  match json_load text with
                  | None => VectorDB.Raise VectorDB.JSONDecodeError
                  | Some _ => VectorDB.Raise (VectorDB.NameError "ipc_data")
                  end
              end) as Hload.
  { intros json_load files self. unfold VectorDB.load_ipc_data.
    destruct (files !! VectorDB.ipc_json_path self) as [text|]; [| done].
    by destruct (json_load text). }
  split; [exact Hload |]. split; [| by vm_compute].
  intros json_load files self index reset. unfold VectorDB.setup.
  rewrite Hload.
  destruct (files !! VectorDB.ipc_json_path self) as [text|]; [| by eauto].
  destruct (json_load text); by eauto.
Qed.

(** ** Further properties of the code *)

Import MoreNotions MoreSamples.

(** *** The precedent tool under failure and without results *)

(** X1. When the provider fails, the tool returns the error text with the
    provider's message as an ordinary result, after the one request it
    sent; it does not try again. *)
Theorem provider_failure_is_reported (w : world) (q : string)
        (ipc : option string) (m : Z) (log : list search_request) (e : exn) :
  Text.truthy (TAVILY_API_KEY w) = true →
  tavily w (precedent_request q ipc m) = Raise e →
  search_legal_precedents w q ipc m log
  = (Ok (Message ("❌ Error searching legal precedents: " +:+ str e)),
     log ++ [precedent_request q ipc m]).
Proof. intros Hkey He. by rewrite search_with_key, He. Qed.

Lemma provider_failure_is_reported_witness :
  search_legal_precedents (failing "timeout") "bail" None 5 []
  = (Ok (Message "❌ Error searching legal precedents: timeout"),
     [precedent_request "bail" None 5]).
Proof.
  apply (provider_failure_is_reported (failing "timeout") "bail" None 5 []
           (ProviderError "timeout")); reflexivity.
Defined.

(** X2. Whatever the credential and the provider do, the tool returns
    normally, and it sends no request or exactly one. *)
Theorem precedent_tool_never_raises (w : world) (q : string)
        (ipc : option string) (m : Z) (log : list search_request) :
  ∃ out,
    (search_legal_precedents w q ipc m log).1 = Ok out
    ∧ ((search_legal_precedents w q ipc m log).2 = log
       ∨ (search_legal_precedents w q ipc m log).2
         = log ++ [precedent_request q ipc m]).
Proof.
  destruct (Text.truthy (TAVILY_API_KEY w)) eqn:Hkey.
  - rewrite search_with_key by done. simpl.
    destruct (tavily w (precedent_request q ipc m)); eauto.
  - rewrite search_without_key by done. simpl. eauto.
Qed.

Lemma dedup_titles_nil (l : list raw_result) :
  dedup_titles ∅ l = [] ↔ l = [].
Proof.
  destruct l as [|x l]; simpl; [done |].
  destruct (decide (title_of x ∈ ∅)) as [Hin|_]; [| done].
  by apply not_elem_of_empty in Hin.
Qed.

Lemma gathered_nil (m : Z) (raw : list raw_result) :
  gathered m raw = [] ↔ List.filter trusted raw = [].
Proof.
  unfold gathered. rewrite <- dedup_titles_nil.
  destruct (dedup_titles ∅ (List.filter trusted raw)) as [|x l].
  - by rewrite take_nil.
  - unfold cap. destruct (Z.to_nat (Z.max 1 m)) eqn:E; [lia | done].
Qed.

Lemma filter_nil_iff (raw : list raw_result) :
  List.filter trusted raw = [] ↔ Forall (λ item, trusted item = false) raw.
Proof.
  induction raw as [|x raw IH]; simpl; [by split |].
  destruct (trusted x) eqn:E.
  - split; [done |]. intros [H _]%Forall_cons. congruence.
  - rewrite IH. split; [by constructor | by intros [_ H]%Forall_cons].
Qed.

(** X3. With a credential and an answering provider, the tool returns the
    no-results text exactly when no result of the answer passes the
    URL-trust test. *)
Theorem no_results_iff_nothing_trusted (w : world) (q : string)
        (ipc : option string) (m : Z) (log : list search_request)
        (resp : response) :
  Text.truthy (TAVILY_API_KEY w) = true →
  tavily w (precedent_request q ipc m) = Ok resp →
  (search_legal_precedents w q ipc m log).1
  = Ok (Message
          "No relevant legal precedents found from trusted Indian legal sources.")
  ↔ Forall (λ item, trusted item = false) (default [] (results resp)).
Proof.
  intros Hkey Hresp. rewrite search_with_key, Hresp by done. simpl.
  rewrite <- filter_nil_iff, <- (gathered_nil m).
  destruct (gathered m (default [] (results resp))); split; done.
Qed.

Lemma no_results_iff_nothing_trusted_witness :
  (search_legal_precedents (with_key [blog_post; forum_thread]) "bail" None 5 []).1
  = Ok (Message
          "No relevant legal precedents found from trusted Indian legal sources.").
Proof.
  apply (no_results_iff_nothing_trusted (with_key [blog_post; forum_thread])
           "bail" None 5 [] (Response (Some [blog_post; forum_thread])));
    [reflexivity | reflexivity |].
  repeat constructor.
Defined.

(** *** The listing of the precedent tool *)

(** X4. For a bound of at least one, the listing holds as many candidates as
    there are titles among the trusted results, and at most the bound. *)
Theorem listing_size_from_one (w : world) (q : string) (ipc : option string)
        (m : Z) (log : list search_request) (found : list (gmap string value)) :
  (1 ≤ m)%Z →
  (search_legal_precedents w q ipc m log).1 = Ok (Formatted found) →
  (Z.of_nat (length found) ≤ m)%Z
  ∧ ∃ resp,
      tavily w (precedent_request q ipc m) = Ok resp
      ∧ length found
        = Nat.min (Z.to_nat m)
            (length (dedup_titles ∅
                       (List.filter trusted (default [] (results resp))))).
Proof.
  intros Hm (resp & Hresp & ->)%search_formatted.
  split; [by apply gathered_at_most |]. exists resp. split; [done |].
  unfold gathered, cap. rewrite length_fmap, length_take.
  by replace (Z.max 1 m) with m by lia.
Qed.

Lemma listing_size_from_one_witness :
  (Z.of_nat (length [to_precedent kanoon_murder; to_precedent casemine_upper])
   ≤ 2)%Z.
Proof.
  destruct (listing_size_from_one
              (with_key [blog_post; kanoon_murder; forum_thread;
                         casemine_upper; manupatra_note])
              "bail" None 2 []
              [to_precedent kanoon_murder; to_precedent casemine_upper])
    as [Hbound _]; [lia | by vm_compute |].
  exact Hbound.
Defined.

(** X5. The candidates of the listing are built, in order, from a
    subsequence of the provider's results, all of them trusted. *)
Theorem listing_follows_upstream_order (w : world) (q : string)
        (ipc : option string) (m : Z) (log : list search_request)
        (found : list (gmap string value)) :
  (search_legal_precedents w q ipc m log).1 = Ok (Formatted found) →
  ∃ resp kept,
    tavily w (precedent_request q ipc m) = Ok resp
    ∧ kept `sublist_of` default [] (results resp)
    ∧ Forall (λ item, trusted item = true) kept
    ∧ found = to_precedent <$> kept.
Proof.
  intros (resp & Hresp & ->)%search_formatted.
  exists resp, (take (cap m)
                  (dedup_titles ∅
                     (List.filter trusted (default [] (results resp))))).
  split; [done |]. split; [| split; [| done]].
  - etrans; [apply sublist_take |].
    etrans; [apply dedup_titles_sublist | apply filter_sublist].
  - apply Forall_forall. intros item Hin%take_elem.
    by apply kept_first in Hin as (_ & _ & Ht & _).
Qed.

Lemma listing_follows_upstream_order_witness :
  ∃ resp kept,
    tavily (with_key [blog_post; kanoon_murder; casemine_upper])
           (precedent_request "bail" None 5) = Ok resp
    ∧ kept `sublist_of` default [] (results resp)
    ∧ Forall (λ item, trusted item = true) kept
    ∧ [to_precedent kanoon_murder; to_precedent casemine_upper]
      = to_precedent <$> kept.
Proof.
  apply (listing_follows_upstream_order
           (with_key [blog_post; kanoon_murder; casemine_upper])
           "bail" None 5 []).
  by vm_compute.
Defined.

(** X6. The summary of a candidate is the head of the content of one of
    the provider's results: at most 500 characters, and all of the content
    when that is no longer. *)
Theorem summary_is_head_of_content (w : world) (q : string)
        (ipc : option string) (m : Z) (log : list search_request)
        (found : list (gmap string value)) (c : gmap string value) :
  (search_legal_precedents w q ipc m log).1 = Ok (Formatted found) →
  c ∈ found →
  ∃ resp item summary rest,
    tavily w (precedent_request q ipc m) = Ok resp
    ∧ item ∈ default [] (results resp)
    ∧ c !! "summary" = Some (VStr summary)
    ∧ get_str (content item) = summary +:+ rest
    ∧ String.length summary ≤ 500
    ∧ (String.length (get_str (content item)) ≤ 500 → rest = EmptyString).
Proof.
  intros (resp & Hresp & ->)%search_formatted (item & -> & Hin)%gathered_elem.
  exists resp, item, (Text.take_chars 500 (get_str (content item))),
    (Text.drop_chars 500 (get_str (content item))).
  split; [done |]. split.
  { eapply elem_of_sublist; [done |].
    etrans; [apply dedup_titles_sublist | apply filter_sublist]. }
  split; [done |]. split; [by rewrite take_drop_chars |].
  split; [rewrite length_take_chars; lia |].
  generalize (get_str (content item)) 500. clear.
  intros s n. revert s. induction n as [|n IH]; intros [|x s]; simpl; try done.
  - lia.
  - intros H. apply IH. lia.
Qed.

Lemma summary_is_head_of_content_witness :
  ∃ resp item summary rest,
    tavily (with_key [kanoon_murder]) (precedent_request "bail" None 5) = Ok resp
    ∧ item ∈ default [] (results resp)
    ∧ to_precedent kanoon_murder !! "summary" = Some (VStr summary)
    ∧ get_str (content item) = summary +:+ rest
    ∧ String.length summary ≤ 500
    ∧ (String.length (get_str (content item)) ≤ 500 → rest = EmptyString).
Proof.
  apply (summary_is_head_of_content (with_key [kanoon_murder]) "bail" None 5 []
           [to_precedent kanoon_murder]).
  - by vm_compute.
  - apply list_elem_of_singleton. reflexivity.
Defined.

(** X7. Raising the bound only extends the listing: what the loop gathers
    under a bound is the head of what it gathers under a larger one. *)
Theorem larger_bound_extends_listing (m m' : Z) (raw : list raw_result) :
  (m ≤ m')%Z →
  collect m raw [] ∅ `prefix_of` collect m' raw [] ∅.
Proof.
  intros Hm. rewrite !collect_gathered. unfold gathered.
  set (l := dedup_titles ∅ (List.filter trusted raw)).
  assert (cap m ≤ cap m') as Hcap by (unfold cap; lia).
  exists (to_precedent <$> drop (cap m) (take (cap m') l)).
  rewrite <- fmap_app. f_equal.
  rewrite <- (take_drop (cap m) (take (cap m') l)) at 1.
  f_equal. rewrite take_take. f_equal. lia.
Qed.

Lemma larger_bound_extends_listing_witness :
  collect 1 [kanoon_murder; casemine_upper] [] ∅
  `prefix_of` collect 2 [kanoon_murder; casemine_upper] [] ∅.
Proof. apply (larger_bound_extends_listing 1 2). lia. Defined.

(** *** The source and the citation of a candidate *)

Lemma find_first {A} (f : A → bool) (l : list A) :
  match List.find f l with
  | Some x =>
      ∃ i, l !! i = Some x ∧ f x = true
           ∧ ∀ j y, j < i → l !! j = Some y → f y = false
  | None => ∀ y, y ∈ l → f y = false
  end.
Proof.
  induction l as [|a l IH]; simpl.
  - by intros y ?%not_elem_of_nil.
  - destruct (f a) eqn:Ea.
    + exists 0. repeat split; [done | intros; lia].
    + destruct (List.find f l) as [x|].
      * destruct IH as (i & Hi & Hx & Hb). exists (S i).
        repeat split; [done | done |].
        intros [|j] y Hj Hy; simpl in Hy; [congruence |].
        apply (Hb j); [lia | done].
      * intros y [->|Hy]%elem_of_cons; [done | by apply IH].
Qed.

(** X8. The source of a candidate is the first trusted domain, in the order
    of [LEGAL_SOURCES], that occurs in the URL as it is written, and
    [Unknown] when none does. *)
Theorem source_is_first_verbatim_domain (item : raw_result) (t : string) :
  ∃ s, precedent item t !! "source" = Some (VStr s)
       ∧ ((s = "Unknown"
           ∧ ∀ d, d ∈ LEGAL_SOURCES →
                  Text.contains d (get_str (url item)) = false)
          ∨ ∃ i, LEGAL_SOURCES !! i = Some s
                 ∧ Text.contains s (get_str (url item)) = true
                 ∧ ∀ j d, j < i → LEGAL_SOURCES !! j = Some d →
                          Text.contains d (get_str (url item)) = false).
Proof.
  pose proof (find_first (λ d, Text.contains d (get_str (url item)))
                LEGAL_SOURCES) as H.
  exists (default "Unknown"
            (List.find (λ d, Text.contains d (get_str (url item)))
                       LEGAL_SOURCES)).
  split; [reflexivity |].
  destruct (List.find _ LEGAL_SOURCES) as [s|]; simpl; [by right | by left].
Qed.

Lemma search_is_stretch (ic : bool) (re : Re.pattern) (text c : string) :
  Re.search ic re text = Some c → ∃ pre post, text = pre +:+ c +:+ post.
Proof.
  unfold Re.search.
  destruct (Re.search_from ic re text 0) as [[pos len]|]; [| done].
  intros [= <-].
  exists (Text.take_chars pos text),
    (Text.drop_chars len (Text.drop_chars pos text)).
  by rewrite !take_drop_chars.
Qed.

(** X9. A citation the extractor returns is never made up nor empty: it is
    a stretch of the text it was given. *)
Theorem citation_occurs_in_text (text c : string) :
  _extract_case_citation text = Some c →
  c ≠ EmptyString ∧ ∃ pre post, text = pre +:+ c +:+ post.
Proof.
  intros H. split.
  - apply extract_nonempty in H. by destruct c.
  - apply first_match_some in H as (i & p & _ & Hs & _).
    by eapply search_is_stretch.
Qed.

Lemma citation_occurs_in_text_witness :
  "(2023) 4 SCC 221" ≠ EmptyString
  ∧ ∃ pre post, "Ref: (2023) 4 SCC 221, at 5" = pre +:+ "(2023) 4 SCC 221" +:+ post.
Proof.
  apply (citation_occurs_in_text "Ref: (2023) 4 SCC 221, at 5").
  by vm_compute.
Defined.






(** *** The URL-trust test *)

(** X11. Whatever stands around a trusted URL leaves it trusted, and so
    does lowering the whole of it: the test sees the lowered text only. *)
Theorem trusted_url_stays_trusted (u pre post : string) :
  _is_legal_source u = true →
  _is_legal_source (pre +:+ u +:+ post) = true
  ∧ _is_legal_source (Text.lower (pre +:+ u +:+ post)) = true.
Proof.
  assert (∀ v, Text.lower (Text.lower v) = Text.lower v) as Hidem.
  { induction v as [|c v IH]; simpl; [done |].
    by rewrite lower_char_idem, IH. }
  rewrite !is_legal_source_existsb. unfold mentions at 3. rewrite Hidem.
  fold (mentions LEGAL_SOURCES (pre +:+ u +:+ post)).
  rewrite !mentions_iff.
  intros (d & Hd & Hc).
  assert (∃ domain, domain ∈ LEGAL_SOURCES
                    ∧ Text.contains domain (Text.lower (pre +:+ u +:+ post))
                      = true) as H; [| done].
  exists d. split; [done |].
  apply contains_split in Hc as (a & b & Hu).
  apply contains_split. exists (Text.lower pre +:+ a), (b +:+ Text.lower post).
  by rewrite !lower_app, Hu, !append_assoc.
Qed.

Lemma trusted_url_stays_trusted_witness :
  _is_legal_source "https://news.example/?to=HTTPS://SCI.GOV.IN/judgment#top"
  = true
  ∧ _is_legal_source
      (Text.lower "https://news.example/?to=HTTPS://SCI.GOV.IN/judgment#top")
    = true.
Proof.
  apply (trusted_url_stays_trusted "HTTPS://SCI.GOV.IN/judgment"
           "https://news.example/?to=" "#top").
  reflexivity.
Defined.

(** *** The court-level searcher *)

(** X12. The court-level searcher does not catch a failure of the
    provider: the exception reaches the caller, after the one request. *)
Theorem court_search_propagates_failure
        (w : world) (self : LegalPrecedentSearcher) (q lvl : string) (m : Z)
        (log : list search_request) (e : exn) :
  tavily w (court_request q lvl m) = Raise e →
  search_by_court w self q lvl m log
  = (Raise e, log ++ [court_request q lvl m]).
Proof. intros He. by rewrite search_by_court_run, He. Qed.

Lemma court_search_propagates_failure_witness :
  search_by_court (failing "timeout") searcher "bail" "high" 5 []
  = (Raise (ProviderError "timeout"), [court_request "bail" "high" 5]).
Proof.
  apply (court_search_propagates_failure (failing "timeout") searcher
           "bail" "high" 5 [] (ProviderError "timeout")).
  reflexivity.
Defined.

Lemma domains_of_other (lvl : string) :
  lvl ≠ "supreme" → lvl ≠ "high" → lvl ≠ "district" →
  domains_of lvl = LEGAL_SOURCES.
Proof.
  intros H1 H2 H3. unfold domains_of, court_domains. simpl list_to_map.
  rewrite !lookup_insert_ne by done.
  destruct (decide (lvl = "all")) as [->|H4].
  - by rewrite lookup_insert_eq.
  - by rewrite lookup_insert_ne, lookup_empty.
Qed.

(** X13. A court level that the table does not know is served as [all]:
    the request is the one for [all], and the candidates differ from those
    for [all] in the court level they repeat only. *)
Theorem unknown_court_level_is_all
        (w : world) (self : LegalPrecedentSearcher) (q lvl : string) (m : Z)
        (log : list search_request) :
  lvl ≠ "supreme" → lvl ≠ "high" → lvl ≠ "district" →
  court_request q lvl m = court_request q "all" m
  ∧ (search_by_court w self q lvl m log).2
    = (search_by_court w self q "all" m log).2
  ∧ ∀ found,
      (search_by_court w self q "all" m log).1 = Ok found →
      (search_by_court w self q lvl m log).1
      = Ok (insert "court_level" (VStr lvl) <$> found).
Proof.
  intros H1 H2 H3.
  assert (court_request q lvl m = court_request q "all" m) as Hreq.
  { unfold court_request, court_query_of.
    by rewrite (domains_of_other lvl). }
  split; [done |]. rewrite !search_by_court_run, Hreq.
  split; [done |]. simpl.
  destruct (tavily w (court_request q "all" m)) as [resp|e]; [| done].
  intros found [= <-]. f_equal. unfold slice_to.
  rewrite !length_fmap. destruct (0 <=? m)%Z;
    rewrite <- !fmap_take, <- list_fmap_compose;
    apply list_fmap_ext; intros i item _; simpl;
    unfold court_result; simpl list_to_map;
    apply map_eq; intros key;
    destruct (decide (key = "court_level")) as [->|];
    by rewrite ?lookup_insert_eq, ?lookup_insert_ne by done.
Qed.

Lemma unknown_court_level_is_all_witness :
  court_request "bail" "tribunal" 5 = court_request "bail" "all" 5.
Proof.
  destruct (unknown_court_level_is_all (with_key [kanoon_murder]) searcher
              "bail" "tribunal" 5 []) as [Hreq _]; [done | done | done |].
  exact Hreq.
Defined.

Lemma court_search_negative_bound_witness :
  (search_by_court (with_key [kanoon_murder; casemine_copy; manupatra_note])
                   searcher "bail" "all" (-1) []).1
  = Ok [court_result "all" kanoon_murder; court_result "all" casemine_copy].
Proof.
  rewrite (court_search_negative_bound
             (with_key [kanoon_murder; casemine_copy; manupatra_note])
             searcher "bail" "all" (-1) []
             (Response (Some [kanoon_murder; casemine_copy; manupatra_note])));
    [reflexivity | lia | reflexivity].
Defined.

(** X15. [search_similar_cases] is a court-level search over [all] for the
    facts, the identifiers each behind [IPC-], and the words
    [similar cases precedent India]; the provider therefore gets these
    followed by [judgment India], behind the clause of the first three
    trusted domains, and every candidate is trusted and marked [all]. *)
Theorem similar_cases_is_court_search_over_all
        (w : world) (self : LegalPrecedentSearcher) (facts : string)
        (ids : list string) (m : Z) (log : list search_request)
        (found : list (gmap string value)) :
  (search_similar_cases w self facts ids m log).1 = Ok found →
  (search_similar_cases w self facts ids m log).2
  = log ++ [court_request (similar_cases_query facts ids) "all" m]
  ∧ query (court_request (similar_cases_query facts ids) "all" m)
    = "(site:indiankanoon.org OR site:sci.gov.in OR site:judgments.ecourts.gov.in) "
      +:+ facts
      +:+ match ids with
          | [] => EmptyString
          | _ => " " +:+ Text.join " " (map (λ s, "IPC-" +:+ s) ids)
          end
      +:+ " similar cases precedent India judgment India"
  ∧ Forall (λ c, url_trusted c ∧ c !! "court_level" = Some (VStr "all")) found.
Proof.
  assert (search_similar_cases w self facts ids m log
          = search_by_court w self (similar_cases_query facts ids) "all" m log)
    as ->.
  { unfold search_similar_cases, similar_cases_query.
    destruct ids as [|id ids]; simpl; [done |].
    by rewrite !append_assoc. }
  rewrite search_by_court_run. simpl.
  destruct (tavily w (court_request (similar_cases_query facts ids) "all" m))
    as [resp|e]; [| done].
  intros [= <-]. split; [done |]. split.
  - unfold court_query_of, similar_cases_query. simpl.
    rewrite !append_assoc. by destruct ids.
  - apply Forall_forall. intros c Hc%slice_to_elem.
    apply list_elem_of_fmap in Hc as (item & -> & Hin).
    apply list_elem_of_In, filter_In in Hin as [_ Ht].
    split; [| done].
    destruct (trusted_url item Ht) as (u & Hu & Hl). exists u.
    split; [| done]. unfold court_result. simpl. by rewrite Hu.
Qed.

Lemma similar_cases_is_court_search_over_all_witness :
  (search_similar_cases (with_key [kanoon_murder; blog_post]) searcher
                        "stabbing after a quarrel" ["302"; "304"] 5 []).2
  = [ {| query :=
           "(site:indiankanoon.org OR site:sci.gov.in OR site:judgments.ecourts.gov.in) stabbing after a quarrel IPC-302 IPC-304 similar cases precedent India judgment India";
         max_results := 10;
         search_depth := "advanced";
         include_domains := None |} ].
Proof.
  destruct (similar_cases_is_court_search_over_all
              (with_key [kanoon_murder; blog_post]) searcher
              "stabbing after a quarrel" ["302"; "304"] 5 []
              [court_result "all" kanoon_murder]) as [Hlog _];
    [by vm_compute |].
  exact Hlog.
Defined.

(** X16. Built and used in one go, the court-level searcher raises
    ValueError before any request is sent when the credential is unset or
    empty; with a credential the constructor sends nothing and the search
    runs as on a searcher that holds that credential and an empty cache. *)
Theorem court_search_needs_key_first
        (w : world) (q lvl : string) (m : Z) (log : list search_request) :
  (self ← new_searcher w; search_by_court w self q lvl m) log
  = match TAVILY_API_KEY w with
    | Some (String c key) =>
        search_by_court w {| api_key := String c key; cache := ∅ |} q lvl m log
    | _ => (Raise (ValueError "TAVILY_API_KEY not found in .env file"), log)
    end.
Proof.
  unfold mbind, M_bind, bind, new_searcher.
  by destruct (TAVILY_API_KEY w) as [[|c key]|].
Qed.

(** *** The index builder *)



(** X18. [prepare_documents] makes one document per record, in order, and
    the metadata of every document has all ten keys, whichever fields the
    record has: a key holds the field it mirrors, or the empty string. *)
Theorem documents_carry_all_metadata
        (ipc_data : list (gmap string string)) (i : nat)
        (s : gmap string string) :
  ipc_data !! i = Some s →
  length (VectorDB.prepare_documents ipc_data) = length ipc_data
  ∧ ∃ doc,
      VectorDB.prepare_documents ipc_data !! i = Some doc
      ∧ doc = VectorDB.prepare_document s
      ∧ dom (VectorDB.metadata doc) = list_to_set metadata_fields.*1
      ∧ ∀ key field,
          (key, field) ∈ metadata_fields →
          VectorDB.metadata doc !! key = Some (default EmptyString (s !! field)).
Proof.
  intros Hs. unfold VectorDB.prepare_documents.
  change (map VectorDB.prepare_document ipc_data)
    with (VectorDB.prepare_document <$> ipc_data).
  split; [by rewrite length_fmap |].
  exists (VectorDB.prepare_document s).
  split; [by rewrite list_lookup_fmap, Hs |]. split; [done |]. split.
  - simpl. by rewrite !dom_insert_L, dom_empty_L.
  - intros key field. unfold metadata_fields. rewrite !elem_of_cons.
    intros [[= -> ->]|[[= -> ->]|[[= -> ->]|[[= -> ->]|[[= -> ->]|
            [[= -> ->]|[[= -> ->]|[[= -> ->]|[[= -> ->]|[[= -> ->]|H]]]]]]]]]];
      [reflexivity .. | by apply not_elem_of_nil in H].
Qed.

Lemma documents_carry_all_metadata_witness :
  VectorDB.metadata (VectorDB.prepare_document theft) !! "triable_by" = Some EmptyString.
Proof.
  destruct (documents_carry_all_metadata [murder; theft] 1 theft eq_refl)
    as (_ & doc & _ & -> & _ & Hfield).
  apply (Hfield "triable_by" "Triable_By"). unfold metadata_fields.
  rewrite !elem_of_cons. do 9 right. by left.
Defined.

Lemma contains_app_r (d a b : string) :
  Text.contains d b = true → Text.contains d (a +:+ b) = true.
Proof.
  rewrite !contains_split. intros (pre & post & ->).
  exists (a +:+ pre), post. by rewrite append_assoc.
Qed.

(** X19. When a record lacks a procedural field, the text of its document
    says [Not specified] for it while the metadata holds the empty string
    under its key. *)
Theorem absent_flag_differs_in_text_and_metadata
        (s : gmap string string) (field label key : string) :
  (field, label, key) ∈ procedural_flags →
  s !! field = None →
  Text.contains (label +:+ ": Not specified")
                (VectorDB.page_content (VectorDB.prepare_document s)) = true
  ∧ VectorDB.metadata (VectorDB.prepare_document s) !! key = Some EmptyString.
Proof.
  unfold procedural_flags. rewrite !elem_of_cons.
  intros [[= -> -> ->]|[[= -> -> ->]|[[= -> -> ->]|H]]] Hs;
    [| | | by apply not_elem_of_nil in H];
    (split; [| simpl; unfold VectorDB.get; by rewrite Hs]);
    unfold VectorDB.prepare_document, VectorDB.page_content.
  - do 32 apply contains_app_r. unfold VectorDB.get at 1. by rewrite Hs.
  - do 36 apply contains_app_r. unfold VectorDB.get at 1. by rewrite Hs.
  - do 40 apply contains_app_r. unfold VectorDB.get at 1. by rewrite Hs.
Qed.

Lemma absent_flag_differs_in_text_and_metadata_witness :
  Text.contains "Cognizable: Not specified"
                (VectorDB.page_content (VectorDB.prepare_document theft)) = true
  ∧ VectorDB.metadata (VectorDB.prepare_document theft) !! "is_cognizable"
    = Some EmptyString.
Proof.
  apply (absent_flag_differs_in_text_and_metadata theft
           "Is_Cognizable" "Cognizable" "is_cognizable");
    [| reflexivity].
  unfold procedural_flags. rewrite !elem_of_cons. right. by left.
Defined.

(** *** The statute search tool *)

(** X20. Without its directory setting, or with a directory that does not
    exist, the statute tool returns the matching error text and never calls
    the store. *)
Theorem statute_tool_needs_database (w : StatuteSearch.world) (q : string)
        (top_k : Z) :
  (Text.truthy (StatuteSearch.environ w !! "PERSIST_DIRECTORY_PATH") = false →
   StatuteSearch.search_ipc_sections w q top_k
   = ("❌ Error: 'PERSIST_DIRECTORY_PATH' is not set in .env file", []))
  ∧ (∀ dir,
       StatuteSearch.environ w !! "PERSIST_DIRECTORY_PATH" = Some dir →
       dir ≠ EmptyString →
       dir ∉ StatuteSearch.paths w →
       StatuteSearch.search_ipc_sections w q top_k
       = ("❌ Error: Vector database not found. Please run setup first.", [])).
Proof.
  unfold StatuteSearch.search_ipc_sections. split.
  - by intros ->.
  - intros dir -> Hne Hnot. destruct dir as [|c dir]; [done |]. simpl.
    by rewrite bool_decide_eq_false_2.
Qed.

Lemma statute_tool_needs_database_witness :
  StatuteSearch.search_ipc_sections
    (StatuteSearch.World builder_environ {[ "chroma_db" ]}
                         (λ _, StatuteSearch.Ok []))
    "theft" 3
  = ("❌ Error: 'PERSIST_DIRECTORY_PATH' is not set in .env file", []).
Proof.
  destruct (statute_tool_needs_database
              (StatuteSearch.World builder_environ {[ "chroma_db" ]}
                                   (λ _, StatuteSearch.Ok []))
              "theft" 3) as [Hunset _].
  apply Hunset. reflexivity.
Defined.

Lemma statute_tool_call (w : StatuteSearch.world) (q : string) (top_k : Z)
      (dir : string) :
  StatuteSearch.environ w !! "PERSIST_DIRECTORY_PATH" = Some dir →
  dir ≠ EmptyString →
  dir ∈ StatuteSearch.paths w →
  StatuteSearch.search_ipc_sections w q top_k
  = (match StatuteSearch.similarity_search w
             (statute_call dir (StatuteSearch.environ w) q top_k None) with
     | StatuteSearch.Raise e => StatuteSearch.search_error_message e
     | StatuteSearch.Ok [] => StatuteSearch.no_sections_message
     | StatuteSearch.Ok docs =>
         Text.join StatuteSearch.nl
                   (imap (λ i doc, StatuteSearch.section_info (S i) doc) docs)
     end, [statute_call dir (StatuteSearch.environ w) q top_k None]).
Proof.
  intros Hdir Hne Hin. unfold StatuteSearch.search_ipc_sections.
  rewrite Hdir. destruct dir as [|c dir]; [done |]. simpl.
  rewrite bool_decide_eq_true_2 by done. simpl.
  fold (statute_call (String c dir) (StatuteSearch.environ w) q top_k None).
  by destruct (StatuteSearch.similarity_search w _) as [[|doc docs]|e].
Qed.





Lemma join_contains (sep : string) (l : list string) (i : nat) (x : string) :
  l !! i = Some x → Text.contains x (Text.join sep l) = true.
Proof.
  revert i. induction l as [|a l IH]; intros i; [done |].
  destruct l as [|b l].
  - destruct i as [|i]; [| done]. intros [= ->]. simpl Text.join.
    apply contains_split. exists EmptyString, EmptyString.
    by rewrite append_nil_r.
  - change (Text.join sep (a :: b :: l))
      with (a +:+ sep +:+ Text.join sep (b :: l)).
    destruct i as [|i]; simpl.
    + intros [= ->]. apply contains_split. by exists EmptyString, (sep +:+ Text.join sep (b :: l)).
    + intros H. do 2 apply contains_app_r. by apply (IH i).
Qed.

(** X23. Every document the store returns has its block in the listing,
    numbered by its place in the answer, counting from 1. *)
Theorem listing_numbers_documents_from_one
        (w : StatuteSearch.world) (q : string) (top_k : Z) (dir : string)
        (docs : list VectorDB.Document) (i : nat) (doc : VectorDB.Document) :
  StatuteSearch.environ w !! "PERSIST_DIRECTORY_PATH" = Some dir →
  dir ≠ EmptyString →
  dir ∈ StatuteSearch.paths w →
  StatuteSearch.similarity_search w
    (statute_call dir (StatuteSearch.environ w) q top_k None)
  = StatuteSearch.Ok docs →
  docs !! i = Some doc →
  Text.contains (StatuteSearch.section_info (i + 1) doc)
                (StatuteSearch.search_ipc_sections w q top_k).1 = true.
Proof.
  intros Hdir Hne Hin Hdocs Hi.
  rewrite (statute_tool_call w q top_k dir), Hdocs by done. simpl.
  destruct docs as [|d docs]; [done |].
  apply (join_contains _ _ i). rewrite list_lookup_imap, Hi. simpl.
  by rewrite Nat.add_1_r.
Qed.

Lemma listing_numbers_documents_from_one_witness :
  Text.contains
    (StatuteSearch.section_info 2 (VectorDB.prepare_document theft))
    (StatuteSearch.search_ipc_sections
       (holding [VectorDB.prepare_document murder;
                 VectorDB.prepare_document theft]) "theft" 3).1
  = true.
Proof.
  apply (listing_numbers_documents_from_one
           (holding [VectorDB.prepare_document murder;
                     VectorDB.prepare_document theft])
           "theft" 3 "chroma_db"
           [VectorDB.prepare_document murder; VectorDB.prepare_document theft]
           1 (VectorDB.prepare_document theft));
    [reflexivity | done | by vm_compute | reflexivity
     | reflexivity].
Defined.

(** X24. When the store answers with documents that [prepare_documents]
    built, the listing of the tool is made of the records' own fields, an
    absent field as an empty text, block after block from 1: none of the
    fallbacks of the block (N/A, Not specified, the head of the content) is
    ever shown. *)
Theorem built_documents_show_no_fallback
        (w : StatuteSearch.world) (q : string) (top_k : Z) (dir : string)
        (s : gmap string string) (data : list (gmap string string)) :
  StatuteSearch.environ w !! "PERSIST_DIRECTORY_PATH" = Some dir →
  dir ≠ EmptyString →
  dir ∈ StatuteSearch.paths w →
  StatuteSearch.similarity_search w
    (statute_call dir (StatuteSearch.environ w) q top_k None)
  = StatuteSearch.Ok (VectorDB.prepare_documents (s :: data)) →
  (StatuteSearch.search_ipc_sections w q top_k).1
  = Text.join StatuteSearch.nl
              (imap (λ i record, record_block (S i) record) (s :: data)).
Proof.
  intros Hdir Hne Hin Hdocs.
  rewrite (statute_tool_call w q top_k dir), Hdocs by done.
  unfold VectorDB.prepare_documents.
  change (map VectorDB.prepare_document (s :: data))
    with (VectorDB.prepare_document s
            :: (VectorDB.prepare_document <$> data)).
  cbv beta iota. unfold fst. f_equal.
  change (VectorDB.prepare_document s :: (VectorDB.prepare_document <$> data))
    with (VectorDB.prepare_document <$> s :: data).
  rewrite imap_fmap. apply imap_ext. intros i record _. reflexivity.
Qed.

Lemma built_documents_show_no_fallback_witness :
  (StatuteSearch.search_ipc_sections
     (holding (VectorDB.prepare_documents [murder; theft])) "theft" 3).1
  = Text.join StatuteSearch.nl
              (imap (λ i record, record_block (S i) record) [murder; theft]).
Proof.
  apply (built_documents_show_no_fallback
           (holding (VectorDB.prepare_documents [murder; theft]))
           "theft" 3 "chroma_db" murder [theft]);
    [reflexivity | done | by vm_compute | reflexivity].
Defined.

(** *** The statute searcher *)

(** X25. The statute searcher returns one record per document of the
    store's answer, in order; a record has the nine keys of the projection
    and so never the offense type nor the court that tries the offence,
    though the index holds both; its content is the text of the document. *)
Theorem searcher_returns_nine_keys
        (w : StatuteSearch.world) (self : StatuteSearch.IPCSectionSearcher)
        (q : string) (top_k : Z) (filters : option (gmap string string))
        (docs : list VectorDB.Document) :
  StatuteSearch.similarity_search w
    {| StatuteSearch.persist_directory := StatuteSearch.db_directory self;
       StatuteSearch.collection_name := StatuteSearch.db_collection self;
       StatuteSearch.query := q;
       StatuteSearch.k := top_k;
       StatuteSearch.filter := StatuteSearch.where_clause filters |}
  = StatuteSearch.Ok docs →
  ∃ found,
    (StatuteSearch.search w self q top_k filters).1 = StatuteSearch.Ok found
    ∧ length found = length docs
    ∧ ∀ i doc,
        docs !! i = Some doc →
        ∃ c, found !! i = Some c
             ∧ dom c = list_to_set projection_keys
             ∧ c !! "content" = Some (VStr (VectorDB.page_content doc))
             ∧ c !! "offense_type" = None
             ∧ c !! "triable_by" = None.
Proof.
  intros Hdocs. exists (StatuteSearch.projection <$> docs).
  unfold StatuteSearch.search. rewrite Hdocs. simpl.
  split; [done |]. split; [by rewrite length_fmap |].
  intros i doc Hi. exists (StatuteSearch.projection doc).
  split; [by rewrite list_lookup_fmap, Hi |].
  split; [| by repeat split].
  unfold StatuteSearch.projection. simpl.
  by rewrite !dom_insert_L, dom_empty_L.
Qed.

Lemma searcher_returns_nine_keys_witness :
  ∃ found,
    (StatuteSearch.search (holding [VectorDB.prepare_document murder])
                          connection "murder" 3 None).1
    = StatuteSearch.Ok found
    ∧ length found = 1.
Proof.
  destruct (searcher_returns_nine_keys
              (holding [VectorDB.prepare_document murder]) connection
              "murder" 3 None [VectorDB.prepare_document murder])
    as (found & Hrun & Hlen & _); [reflexivity |].
  by exists found.
Defined.

(** X26. What the builder stores comes back from the searcher: for a
    document that [prepare_documents] built, each of the eight metadata keys
    the searcher projects holds the field of the record, and the empty
    string, never None, when the record lacks the field. *)
Theorem built_fields_come_back (s : gmap string string) (key field : string) :
  (key, field) ∈ metadata_fields →
  key ≠ "offense_type" →
  key ≠ "triable_by" →
  StatuteSearch.projection (VectorDB.prepare_document s) !! key
  = Some (VStr (default EmptyString (s !! field))).
Proof.
  unfold metadata_fields. rewrite !elem_of_cons.
  intros [[= -> ->]|[[= -> ->]|[[= -> ->]|[[= -> ->]|[[= -> ->]|
          [[= -> ->]|[[= -> ->]|[[= -> ->]|[[= -> ->]|[[= -> ->]|H]]]]]]]]]]
         Ho Ht;
    [reflexivity | reflexivity | reflexivity | reflexivity | reflexivity
     | done | reflexivity | reflexivity | reflexivity | done
     | by apply not_elem_of_nil in H].
Qed.

Lemma built_fields_come_back_witness :
  StatuteSearch.projection (VectorDB.prepare_document theft) !! "chapter"
  = Some (VStr EmptyString).
Proof.
  apply (built_fields_come_back theft "chapter" "Chapter"); [| done | done].
  unfold metadata_fields. rewrite !elem_of_cons. do 2 right. by left.
Defined.

(** X27. The statute searcher does not catch a failure of the store, and
    it sends an empty filter dictionary as no filter at all. *)
Theorem searcher_propagates_failure_and_drops_empty_filter
        (w : StatuteSearch.world) (self : StatuteSearch.IPCSectionSearcher)
        (q : string) (top_k : Z) :
  StatuteSearch.search w self q top_k (Some ∅)
  = StatuteSearch.search w self q top_k None
  ∧ (∀ f, f ≠ ∅ →
          StatuteSearch.filter
            <$> (StatuteSearch.search w self q top_k (Some f)).2
          = [Some f])
  ∧ (∀ filters e,
       StatuteSearch.similarity_search w
         {| StatuteSearch.persist_directory := StatuteSearch.db_directory self;
            StatuteSearch.collection_name := StatuteSearch.db_collection self;
            StatuteSearch.query := q;
            StatuteSearch.k := top_k;
            StatuteSearch.filter := StatuteSearch.where_clause filters |}
       = StatuteSearch.Raise e →
       (StatuteSearch.search w self q top_k filters).1 = StatuteSearch.Raise e).
Proof.
  split; [done |]. split.
  - intros f Hf. unfold StatuteSearch.search, StatuteSearch.where_clause.
    destruct (decide (f = ∅)); [done |].
    by destruct (StatuteSearch.similarity_search w _).
  - intros filters e He. unfold StatuteSearch.search. by rewrite He.
Qed.


